(** * MediaServerRefreshJuly: the transfer-complete refresh handler

    A shallow embedding of [plugins.v2/mediaserverrefreshjuly/__init__.py]:
    the plugin's configuration ([init_plugin]), the resolution of the active
    media servers ([service_infos]) and the event handler [refresh] with its
    delay-coalescing lock file and its dispatch loop.

    The handler is effectful.  It is written here in a state-and-exception
    monad over an explicit world: the files below the configuration
    directory, the successive readings of the clock, the answers of the
    service registry and a chronological trace of everything the handler does
    to its surroundings (log lines, file operations, sleeps, calls on the
    media-server clients).  Python floats are IEEE-754 binary64 numbers, here
    the primitive [float]. *)

From Stdlib Require Import Floats ZArith Ascii.
From stdpp Require Import gmap strings list pretty.

(** ** Python values and exceptions *)

(** The exceptions that occur in the handler; all of them derive from
    [Exception], so [except Exception] catches each one. *)
Inductive Exn :=
| ValueError
| TypeError
| OverflowError
| AttributeError
| FileNotFoundError
| FileExistsError
| IsADirectoryError
| PermissionError
| OSError
| ClientError (msg : string).   (* whatever a media-server client raises *)

(** The outcome of a Python expression or call. *)
Inductive Res (A : Type) :=
| Ok (a : A)
| Raise (e : Exn).
Arguments Ok {A} a.
Arguments Raise {A} e.

(** Configuration values are untyped: the form delivers the delay as text,
    its default is the integer 0, and a missing key reads as [None]. *)
Inductive PyVal :=
| VNone
| VBool (b : bool)
| VInt (z : Z)
| VFloat (f : float)
| VStr (s : string).

(** Truth value of a configuration value ([if v:], [v or d]). *)
Definition py_bool (v : PyVal) : bool :=
  match v with
  | VNone => false
  | VBool b => b
  | VInt z => negb (z =? 0)%Z
  | VFloat f => negb (PrimFloat.eqb f 0%float)
  | VStr s => negb (String.eqb s "")
  end.

(** [a or b] *)
Definition py_or (a b : PyVal) : PyVal := if py_bool a then a else b.

(** [float(z)] for an integer: correctly rounded, [OverflowError] when the
    integer is too large for a double. *)
Definition float_of_int (z : Z) : Res float :=
  let f := SF2Prim (binary_normalize prec emax z 0 false) in
  if PrimFloat.is_infinity f then Raise OverflowError else Ok f.

(** The library functions the handler calls.  Their code is not part of the
    plugin; the development is parametric in them. *)
Record PyLib := {
  (* float(s) on a string: ValueError when s is not a float literal *)
  float_of_str : string -> Res float;
  (* str(x) on a float *)
  str_of_float : float -> string;
  (* sha1(s.encode()).hexdigest() *)
  sha1_hexdigest : string -> string;
  (* str(Path(s)) *)
  path_str : string -> string;
  (* str(Path(a) / b), for a single path component b *)
  path_join : string -> string -> string;
  (* time.strftime("%Y-%m-%d %H:%M:%S", time.localtime(t)): localtime raises
     OverflowError, ValueError or OSError on a value outside its range *)
  strftime_local : float -> Res string;
  (* time.sleep(d): the exception it raises on a value it rejects (negative,
     not a number, too large), or none *)
  sleep_error : float -> option Exn;
}.

(** [float(v)] on a configuration value. *)
Definition py_float (lib : PyLib) (v : PyVal) : Res float :=
  match v with
  | VNone => Raise TypeError
  | VBool b => Ok (if b then 1%float else 0%float)
  | VInt z => float_of_int z
  | VFloat f => Ok f
  | VStr s => float_of_str lib s
  end.

(** ** The data of the host application the handler touches *)

Record MediaInfo := {
  title : string;
  year : string;
  type : string;
  category : string;
}.

Record FileItem := { path : option string }.

Record TransferInfo := { target_diritem : option FileItem }.

(** The event payload, a dict read with [.get]: an absent key and a key
    holding [None] both read as [None]. *)
Record EventInfo := {
  mediainfo : option MediaInfo;
  transferinfo : option TransferInfo;
}.

(** [event.event_data]: [None] stands for [None] and for the empty dict,
    which are both false in [if not event_info]. *)
Record Event := { event_data : option EventInfo }.

Record RefreshMediaItem := {
  item_title : string;
  item_year : string;
  item_type : string;
  item_category : string;
  target_path : string;   (* the Path, by its string form *)
}.

(** A media-server client.  The two refresh methods are looked up with
    [hasattr]: [None] is a client without the attribute, [Some f] one with
    it, [f] giving what the call does. *)
Record MediaServer := {
  is_inactive : bool;
  refresh_library_by_items : option (list RefreshMediaItem -> Res unit);
  refresh_root_library : option (Res unit);
}.

Record ServiceInfo := { instance : MediaServer }.

(** A Python dict keeps insertion order: an association list. *)
Definition Dict (V : Type) := list (string * V).

(** [d[k] = v] *)
Fixpoint dict_set {V} (k : string) (v : V) (d : Dict V) : Dict V :=
  match d with
  | [] => [(k, v)]
  | (k', v') :: d' =>
      if String.eqb k k' then (k, v) :: d' else (k', v') :: dict_set k v d'
  end.

(** ** The world

    The handler sees the clock, the service registry and the files.  The
    regular files are kept by path with their text, the directories by path.
    A file operation fails with the error the environment has for it, if any
    ([fs_fault]: permissions, a vanished file, a full disk), or with the
    error the state of the files calls for (a directory opened as a file, a
    file in the place of the lock directory).  The clock and the registry
    answer as the environment says, call after call: neither need stay the
    same while the handler sleeps. *)

Inductive FsOp :=
| FsExists (p : string)             (* Path.exists *)
| FsOpenRead (p : string)           (* Path.open("r") *)
| FsRead (p : string)               (* f.read() *)
| FsMkdir (p : string)              (* Path.mkdir(parents=True, exist_ok=True) *)
| FsTouch (p : string)              (* Path.touch(exist_ok=True) *)
| FsOpenWrite (p : string)          (* Path.open("w") *)
| FsWrite (p : string) (data : string).  (* f.write(data), flushed on close *)

Inductive Level := Info | Warning.

(** The log lines of the module, by their template and arguments. *)
Inductive LogMsg :=
| MsgNotConfigured                        (* 尚未配置媒体服务器，请检查配置 *)
| MsgNoInstance                           (* 获取媒体服务器实例失败，请检查配置 *)
| MsgInactive (name : string)             (* 媒体服务器 {name} 未连接，请检查配置 *)
| MsgNoneActive                           (* 没有已连接的媒体服务器，请检查配置 *)
| MsgLockPath (lock_path : string)        (* 锁定文件路径: {lock_path} *)
| MsgPending (target : string) (at_ : string)
    (* 当前目录 [{target_path}] 已有任务等待执行，将在 {lock_time_str} 进行刷新，本次取消. *)
| MsgScheduled (at_ : string)             (* 任务将于 {run_time_str} 执行 *)
| MsgLockFailed (e : Exn)                 (* 锁定失败，刷新任务继续执行，失败原因: {e} *)
| MsgDelay (delay : PyVal)                (* 延迟 {self._delay} 秒后刷新媒体库... *)
| MsgUnsupported (name : string).         (* {name} 不支持刷新 *)

Inductive Effect :=
| EvLog (lvl : Level) (msg : LogMsg)
| EvFs (op : FsOp)
| EvSleep (secs : float)
| EvRefreshItems (name : string) (items : list RefreshMediaItem)
| EvRefreshRoot (name : string).

(** What surrounds one invocation and is not under its control. *)
Record Env := {
  (* settings.CONFIG_PATH *)
  CONFIG_PATH : string;
  (* the value of the n-th call of time.time() *)
  time_time : nat -> float;
  (* the answer to the n-th call of MediaServerHelper.get_services *)
  get_services : nat -> list string -> Dict ServiceInfo;
  (* the error, if any, with which a file operation fails *)
  fs_fault : FsOp -> option Exn;
}.

Record State := {
  clock_reads : nat;
  registry_queries : nat;
  files : gmap string string;     (* regular files, by path, with their text *)
  dirs : gset string;             (* directories *)
  trace : list Effect;            (* oldest first *)
}.

Definition emit (ev : Effect) (st : State) : State :=
  {| clock_reads := clock_reads st;
     registry_queries := registry_queries st;
     files := files st;
     dirs := dirs st;
     trace := trace st ++ [ev] |}.

Definition set_files (fs : gmap string string) (st : State) : State :=
  {| clock_reads := clock_reads st;
     registry_queries := registry_queries st;
     files := fs;
     dirs := dirs st;
     trace := trace st |}.

Definition set_dirs (ds : gset string) (st : State) : State :=
  {| clock_reads := clock_reads st;
     registry_queries := registry_queries st;
     files := files st;
     dirs := ds;
     trace := trace st |}.

(** The clock has been read once more. *)
Definition tick (st : State) : State :=
  {| clock_reads := S (clock_reads st);
     registry_queries := registry_queries st;
     files := files st;
     dirs := dirs st;
     trace := trace st |}.

(** The registry has been asked once more. *)
Definition asked (st : State) : State :=
  {| clock_reads := clock_reads st;
     registry_queries := S (registry_queries st);
     files := files st;
     dirs := dirs st;
     trace := trace st |}.

(** ** The monad of the handler *)

Definition M (A : Type) : Type := Env -> State -> Res A * State.

Definition ret {A} (a : A) : M A := fun _ st => (Ok a, st).

Definition raise {A} (e : Exn) : M A := fun _ st => (Raise e, st).

Definition bind {A B} (m : M A) (k : A -> M B) : M B :=
  fun env st =>
    match m env st with
    | (Ok a, st') => k a env st'
    | (Raise e, st') => (Raise e, st')
    end.

Notation "x <- m ;; k" := (bind m (fun x => k))
  (at level 100, m at next level, right associativity).
Notation "m ;;; k" := (bind m (fun _ => k))
  (at level 100, right associativity).

(** [try: body  except Exception as e: handler(e)] *)
Definition try_except {A} (body : M A) (handler : Exn -> M A) : M A :=
  fun env st =>
    match body env st with
    | (Ok a, st') => (Ok a, st')
    | (Raise e, st') => handler e env st'
    end.

(** Lifts the outcome of a library call. *)
Definition lift {A} (r : Res A) : M A := fun _ st => (r, st).

Definition effect (ev : Effect) : M unit := fun _ st => (Ok tt, emit ev st).

Definition log (lvl : Level) (msg : LogMsg) : M unit := effect (EvLog lvl msg).

(** [time.time()] *)
Definition time_now : M float :=
  fun env st => (Ok (time_time env (clock_reads st)), tick st).

(** [time.sleep(d)] *)
Definition time_sleep (lib : PyLib) (d : float) : M unit :=
  match sleep_error lib d with
  | Some e => raise e
  | None => effect (EvSleep d)
  end.

(** [self.mediaserver_helper.get_services(name_filters=names)] *)
Definition query_services (names : list string) : M (Dict ServiceInfo) :=
  fun env st => (Ok (get_services env (registry_queries st) names), asked st).

(** A file operation: recorded, then failing as the environment says, and
    otherwise acting on the files. *)
Definition fs_do {A} (op : FsOp) (act : State -> Res A * State) : M A :=
  fun env st =>
    let st1 := emit (EvFs op) st in
    match fs_fault env op with
    | Some e => (Raise e, st1)
    | None => act st1
    end.

Definition is_file (p : string) (st : State) : bool :=
  bool_decide (is_Some (files st !! p)).

Definition is_dir (p : string) (st : State) : bool :=
  bool_decide (p ∈ dirs st).

Definition path_exists (p : string) : M bool :=
  fs_do (FsExists p) (fun st => (Ok (is_file p st || is_dir p st), st)).

Definition open_read (p : string) : M unit :=
  fs_do (FsOpenRead p) (fun st =>
    if is_file p st then (Ok tt, st)
    else if is_dir p st then (Raise IsADirectoryError, st)
    else (Raise FileNotFoundError, st)).

Definition read (p : string) : M string :=
  fs_do (FsRead p) (fun st => (Ok (default "" (files st !! p)), st)).

Definition mkdir (p : string) : M unit :=
  fs_do (FsMkdir p) (fun st =>
    if is_file p st then (Raise FileExistsError, st)
    else (Ok tt, set_dirs ({[p]} ∪ dirs st) st)).

Definition touch (p : string) : M unit :=
  fs_do (FsTouch p) (fun st =>
    if is_file p st || is_dir p st then (Ok tt, st)
    else (Ok tt, set_files (<[p := ""]> (files st)) st)).

Definition open_write (p : string) : M unit :=
  fs_do (FsOpenWrite p) (fun st =>
    if is_dir p st then (Raise IsADirectoryError, st)
    else (Ok tt, set_files (<[p := ""]> (files st)) st)).

Definition write (p data : string) : M unit :=
  fs_do (FsWrite p data) (fun st => (Ok tt, set_files (<[p := data]> (files st)) st)).

(** ** The plugin *)

(** The configuration dict handed to [init_plugin], read with [.get]. *)
Record Config := {
  enabled : PyVal;
  delay : PyVal;
  mediaservers : list string;   (* [None] and a missing key read as [[]] *)
}.

(** The private attributes of the plugin object. *)
Record Plugin := {
  _enabled : PyVal;
  _delay : PyVal;
  _mediaservers : list string;
}.

(** The class attributes, before any configuration is loaded. *)
Definition new_plugin : Plugin :=
  {| _enabled := VBool false; _delay := VInt 0; _mediaservers := [] |}.

(** [init_plugin]; [None] stands for [None] and for the empty dict. *)
Definition init_plugin (self : Plugin) (config : option Config) : Plugin :=
  match config with
  | Some c =>
      {| _enabled := enabled c;
         _delay := py_or (delay c) (VInt 0);
         _mediaservers := mediaservers c |}
  | None => self
  end.

Definition get_state (self : Plugin) : PyVal := _enabled self.

(** The loop of [service_infos] over [services.items()]. *)
Fixpoint active_services (services acc : Dict ServiceInfo) : M (Dict ServiceInfo) :=
  match services with
  | [] => ret acc
  | (service_name, service_info) :: rest =>
      if is_inactive (instance service_info)
      then log Warning (MsgInactive service_name) ;;; active_services rest acc
      else active_services rest (dict_set service_name service_info acc)
  end.

(** The property [service_infos]: the active servers, or [None]. *)
Definition service_infos (self : Plugin) : M (option (Dict ServiceInfo)) :=
  match _mediaservers self with
  | [] => log Warning MsgNotConfigured ;;; ret None
  | _ :: _ =>
      services <- query_services (_mediaservers self) ;;
      match services with
      | [] => log Warning MsgNoInstance ;;; ret None
      | _ :: _ =>
          active <- active_services services [] ;;
          match active with
          | [] => log Warning MsgNoneActive ;;; ret None
          | _ :: _ => ret (Some active)
          end
      end
  end.

Section Handler.

Variable lib : PyLib.

(** [temp_path / "media_refresh_lock"], which is [lock_path.parent]. *)
Definition lock_dir (env : Env) : string :=
  path_join lib (path_str lib (CONFIG_PATH env)) "media_refresh_lock".

(** [temp_path / "media_refresh_lock" / f"{target_path_hash}.lock"], for the
    target directory [p] of the event. *)
Definition lock_file (env : Env) (p : string) : string :=
  path_join lib (lock_dir env) (sha1_hexdigest lib (path_str lib p) +:+ ".lock").

(** Lines 203-211: does an unexpired lock exist?  On [true] the handler
    returns. *)
Definition lock_pending (target_path lock_path : string) : M bool :=
  found <- path_exists lock_path ;;
  if found then
    open_read lock_path ;;;
    content <- read lock_path ;;
    if negb (String.eqb content "") then
      lock_time <- lift (float_of_str lib content) ;;
      now <- time_now ;;
      if PrimFloat.ltb now lock_time then
        lock_time_str <- lift (strftime_local lib lock_time) ;;
        log Info (MsgPending target_path lock_time_str) ;;;
        ret true
      else ret false
    else ret false
  else ret false.

(** Lines 213-219: the lock is (re)written with the new run time. *)
Definition write_lock (parent lock_path : string) (delay : float) : M unit :=
  mkdir parent ;;;
  touch lock_path ;;;
  now <- time_now ;;
  let run_time := PrimFloat.add now delay in
  run_time_str <- lift (strftime_local lib run_time) ;;
  open_write lock_path ;;;
  write lock_path (str_of_float lib run_time) ;;;
  log Info (MsgScheduled run_time_str).

(** Lines 201-221, the [try] statement.  [false]: the handler returns (line
    211); [true]: it goes on. *)
Definition try_lock (target_path parent lock_path : string) (delay : float) : M bool :=
  try_except
    (pending <- lock_pending target_path lock_path ;;
     if pending then ret false
     else write_lock parent lock_path delay ;;; ret true)
    (fun e => log Info (MsgLockFailed e) ;;; ret true).

(** Lines 193-224, the body of [if self._delay:]. *)
Definition delayed (self : Plugin) (p : string) : M bool :=
  fun env =>
    (delay <- lift (py_float lib (_delay self)) ;;
     let target_path := path_str lib p in
     let lock_path := lock_file env p in
     log Info (MsgLockPath lock_path) ;;;
     go <- try_lock target_path (lock_dir env) lock_path delay ;;
     if go then
       log Info (MsgDelay (_delay self)) ;;;
       secs <- lift (py_float lib (_delay self)) ;;
       time_sleep lib secs ;;;
       ret true
     else ret false) env.

(** The body of the dispatch loop, lines 238-244. *)
Definition dispatch_one (name : string) (service : ServiceInfo)
    (items : list RefreshMediaItem) : M unit :=
  match refresh_library_by_items (instance service) with
  | Some call => effect (EvRefreshItems name items) ;;; lift (call items)
  | None =>
      match refresh_root_library (instance service) with
      | Some outcome => effect (EvRefreshRoot name) ;;; lift outcome
      | None => log Warning (MsgUnsupported name)
      end
  end.

(** The loop [for name, service in self.service_infos.items()]. *)
Fixpoint dispatch (services : Dict ServiceInfo) (items : list RefreshMediaItem) : M unit :=
  match services with
  | [] => ret tt
  | (name, service) :: rest => dispatch_one name service items ;;; dispatch rest items
  end.

(** Lines 226-244: the refresh item is built and every active server is
    asked to refresh.  [mediainfo.title] on [None] and [.items()] on [None]
    raise [AttributeError]. *)
Definition refresh_servers (self : Plugin) (event_info : EventInfo) (p : string) : M unit :=
  match mediainfo event_info with
  | None => raise AttributeError
  | Some mi =>
      let items :=
        [ {| item_title := title mi;
             item_year := year mi;
             item_type := type mi;
             item_category := category mi;
             target_path := path_str lib p |} ] in
      infos <- service_infos self ;;
      match infos with
      | None => raise AttributeError
      | Some services => dispatch services items
      end
  end.

(** Line 189: the path of the target directory, when the payload has a
    [transferinfo] with a [target_diritem] with a non-empty [path]. *)
Definition target_of (event_info : EventInfo) : option string :=
  match transferinfo event_info with
  | None => None
  | Some ti =>
      match target_diritem ti with
      | None => None
      | Some item =>
          match path item with
          | None => None
          | Some p => if String.eqb p "" then None else Some p
          end
      end
  end.

(** The handler of [EventType.TransferComplete]. *)
Definition refresh (self : Plugin) (event : Event) : M unit :=
  if negb (py_bool (_enabled self)) then ret tt
  else
    match event_data event with
    | None => ret tt
    | Some event_info =>
        infos <- service_infos self ;;
        match infos with
        | None => ret tt
        | Some _ =>
            match target_of event_info with
            | None => ret tt
            | Some p =>
                go <- (if py_bool (_delay self) then delayed self p else ret true) ;;
                if go then refresh_servers self event_info p else ret tt
            end
        end
    end.

End Handler.

(** ** What a run adds to the trace *)

Definition emits (evs : list Effect) (st : State) : State :=
  {| clock_reads := clock_reads st;
     registry_queries := registry_queries st;
     files := files st;
     dirs := dirs st;
     trace := trace st ++ evs |}.

(** The call the loop body selects on a service, and its outcome. *)
Definition service_effect (name : string) (service : ServiceInfo)
    (items : list RefreshMediaItem) : Effect :=
  match refresh_library_by_items (instance service) with
  | Some _ => EvRefreshItems name items
  | None =>
      match refresh_root_library (instance service) with
      | Some _ => EvRefreshRoot name
      | None => EvLog Warning (MsgUnsupported name)
      end
  end.

Definition service_call (service : ServiceInfo) (items : list RefreshMediaItem) : Res unit :=
  match refresh_library_by_items (instance service) with
  | Some call => call items
  | None =>
      match refresh_root_library (instance service) with
      | Some outcome => outcome
      | None => Ok tt
      end
  end.

Definition returns (items : list RefreshMediaItem) (entry : string * ServiceInfo) : Prop :=
  service_call entry.2 items = Ok tt.

Definition effects_of (services : Dict ServiceInfo) (items : list RefreshMediaItem) : list Effect :=
  map (fun entry => service_effect entry.1 entry.2 items) services.

(** Tests on effects. *)
Definition is_log (ev : Effect) : bool :=
  match ev with
  | EvLog _ _ => true
  | _ => false
  end.

Definition is_fs (ev : Effect) : bool :=
  match ev with
  | EvFs _ => true
  | _ => false
  end.

Definition is_sleep (ev : Effect) : bool :=
  match ev with
  | EvSleep _ => true
  | _ => false
  end.

Definition is_call (ev : Effect) : bool :=
  match ev with
  | EvRefreshItems _ _ | EvRefreshRoot _ => true
  | _ => false
  end.

(** A whole-library call, an item call, on the service [name]. *)
Definition is_root_call (name : string) (ev : Effect) : bool :=
  match ev with
  | EvRefreshRoot n => String.eqb n name
  | _ => false
  end.

Definition is_item_call (name : string) (ev : Effect) : bool :=
  match ev with
  | EvRefreshItems n _ => String.eqb n name
  | _ => false
  end.

(** Log lines and calls on the clients: nothing on disk, no sleep. *)
Definition is_log_or_call (ev : Effect) : bool := is_log ev || is_call ev.

(** Log lines and file operations: no sleep, no call on a client. *)
Definition is_log_or_fs (ev : Effect) : bool := is_log ev || is_fs ev.

(** Log lines and the file operations that only look. *)
Definition is_probe (ev : Effect) : bool :=
  match ev with
  | EvLog _ _ => true
  | EvFs (FsExists _) | EvFs (FsOpenRead _) | EvFs (FsRead _) => true
  | _ => false
  end.

(** Everything but the writing of a lock record. *)
Definition is_not_write (ev : Effect) : bool :=
  match ev with
  | EvFs (FsWrite _ _) => false
  | _ => true
  end.

(** How many effects of a trace pass a test. *)
Definition count (f : Effect -> bool) (evs : list Effect) : nat :=
  length (List.filter f evs).

(** [st'] comes from [st] by effects that all pass [ok], with every file and
    directory as it was. *)
Definition steady (ok : Effect -> bool) (st st' : State) : Prop :=
  files st' = files st /\ dirs st' = dirs st /\
  exists new, trace st' = trace st ++ new /\ forallb ok new = true.

(** [st'] adds to the trace of [st] effects that all pass [ok]. *)
Definition extends (ok : Effect -> bool) (st st' : State) : Prop :=
  exists new, trace st' = trace st ++ new /\ forallb ok new = true.

(** From [st] to [st'] no file but [lock_path] has changed, and no directory
    but [parent] has appeared. *)
Definition keeps_but (lock_path parent : string) (st st' : State) : Prop :=
  (forall q, q <> lock_path -> files st' !! q = files st !! q) /\
  dirs st' ⊆ {[parent]} ∪ dirs st.

(** Every record written between [st] and [st'] went to [lock_path], was
    the text of a run time (a clock reading plus [d]) that [strftime] accepts,
    and is what the file holds in [st'] unless the write failed. *)
Definition lock_writes (lib : PyLib) (env : Env) (d : float) (lock_path : string)
    (st st' : State) : Prop :=
  exists new, trace st' = trace st ++ new /\
    forall q data, In (EvFs (FsWrite q data)) new ->
      q = lock_path /\
      (exists n at_,
         data = str_of_float lib (PrimFloat.add (time_time env n) d) /\
         strftime_local lib (PrimFloat.add (time_time env n) d) = Ok at_) /\
      (fs_fault env (FsWrite q data) = None -> files st' !! q = Some data).

(** ** The lock file when the handler meets it *)

Inductive Lock :=
| LockAbsent
| LockEmpty
| LockExpired (content : string) (lock_time : float)
| LockUnreadable (e : Exn)
| LockCorrupt (content : string) (e : Exn).

(** The lock file at [lock_path] is in condition [l] when the handler looks at
    it in state [st]. *)
Definition lock_is (lib : PyLib) (env : Env) (st : State) (lock_path : string)
    (l : Lock) : Prop :=
  match l with
  | LockAbsent => files st !! lock_path = None /\ lock_path ∉ dirs st
  | LockEmpty => files st !! lock_path = Some ""
  | LockExpired content lock_time =>
      files st !! lock_path = Some content /\ content <> "" /\
      float_of_str lib content = Ok lock_time /\
      PrimFloat.ltb (time_time env (clock_reads st)) lock_time = false
  | LockUnreadable e =>
      is_Some (files st !! lock_path) /\
      fs_fault env (FsExists lock_path) = None /\
      fs_fault env (FsOpenRead lock_path) = Some e
  | LockCorrupt content e =>
      files st !! lock_path = Some content /\ content <> "" /\
      fs_fault env (FsExists lock_path) = None /\
      fs_fault env (FsOpenRead lock_path) = None /\
      fs_fault env (FsRead lock_path) = None /\
      float_of_str lib content = Raise e
  end.

(** The conditions in which the handler rewrites the lock. *)
Definition stale (l : Lock) : bool :=
  match l with
  | LockAbsent | LockEmpty | LockExpired _ _ => true
  | _ => false
  end.



(** The file operations of the check of the lock. *)
Definition lock_checks (lock_path : string) (l : Lock) : list Effect :=
  match l with
  | LockAbsent => [EvFs (FsExists lock_path)]
  | LockUnreadable _ => [EvFs (FsExists lock_path); EvFs (FsOpenRead lock_path)]
  | _ => [EvFs (FsExists lock_path); EvFs (FsOpenRead lock_path); EvFs (FsRead lock_path)]
  end.




(** ** The servers and the item of a run *)

(** A server of the registry's answer is kept when its client does not report
    itself inactive. *)
Definition is_active (entry : string * ServiceInfo) : bool :=
  negb (is_inactive (instance entry.2)).

(** The warnings of the loop of [service_infos]: one for each inactive
    server, in the order of the registry's answer. *)
Definition inactive_warnings (services : Dict ServiceInfo) : list Effect :=
  map (fun entry => EvLog Warning (MsgInactive entry.1))
    (List.filter (fun entry => negb (is_active entry)) services).

(** The warning on which [service_infos] gives up, if it does, after the
    registry has answered with [services]. *)
Definition closing_warning (services : Dict ServiceInfo) : list Effect :=
  match services, List.filter is_active services with
  | [], _ => [EvLog Warning MsgNoInstance]
  | _ :: _, [] => [EvLog Warning MsgNoneActive]
  | _ :: _, _ :: _ => []
  end.

(** The one item of lines 227-235, for the media [mi] moved to [p]. *)
Definition refresh_item (lib : PyLib) (mi : MediaInfo) (p : string) : RefreshMediaItem :=
  {| item_title := title mi;
     item_year := year mi;
     item_type := type mi;
     item_category := category mi;
     target_path := path_str lib p |}.

(** ** An instance of the library

    CPython on a POSIX machine whose local time zone is UTC, for running the
    handler on examples.  The theorems below hold for every [PyLib]; the
    worked examples use this one. *)

Module Sample.

(** *** SHA-1 (FIPS 180-4) over the bytes of a string *)

Definition w32 (x : Z) : Z := Z.land x 4294967295.

Definition rotl (n x : Z) : Z := w32 (Z.lor (Z.shiftl x n) (Z.shiftr x (32 - n))).

Fixpoint bytes_of (s : string) : list Z :=
  match s with
  | EmptyString => []
  | String c rest => Z.of_N (Ascii.N_of_ascii c) :: bytes_of rest
  end.

(** Big-endian bytes of [x], [n] of them. *)
Fixpoint be_bytes (n : nat) (x : Z) : list Z :=
  match n with
  | O => []
  | S n' => Z.land (Z.shiftr x (8 * Z.of_nat n')) 255 :: be_bytes n' x
  end.

Definition pad (msg : list Z) : list Z :=
  let len := Z.of_nat (length msg) in
  let zeros := Z.to_nat ((55 - len) mod 64) in
  msg ++ [128%Z] ++ replicate zeros 0%Z ++ be_bytes 8 (8 * len).

Fixpoint words (fuel : nat) (bs : list Z) : list Z :=
  match fuel, bs with
  | S fuel', b0 :: b1 :: b2 :: b3 :: rest =>
      (Z.shiftl b0 24 + Z.shiftl b1 16 + Z.shiftl b2 8 + b3)%Z :: words fuel' rest
  | _, _ => []
  end.

(** The message schedule, newest word first. *)
Fixpoint schedule (n : nat) (ws : list Z) : list Z :=
  match n with
  | O => ws
  | S n' =>
      let w := rotl 1 (Z.lxor (Z.lxor (nth 2 ws 0%Z) (nth 7 ws 0%Z))
                              (Z.lxor (nth 13 ws 0%Z) (nth 15 ws 0%Z))) in
      schedule n' (w :: ws)
  end.

Definition round_fk (t : nat) (b c d : Z) : Z * Z :=
  if (t <? 20)%nat then (Z.lor (Z.land b c) (Z.land (w32 (Z.lnot b)) d), 1518500249%Z)
  else if (t <? 40)%nat then (Z.lxor (Z.lxor b c) d, 1859775393%Z)
  else if (t <? 60)%nat then
    (Z.lor (Z.lor (Z.land b c) (Z.land b d)) (Z.land c d), 2400959708%Z)
  else (Z.lxor (Z.lxor b c) d, 3395469782%Z).

Fixpoint rounds (t : nat) (ws : list Z) (h : Z * Z * Z * Z * Z) : Z * Z * Z * Z * Z :=
  match ws with
  | [] => h
  | w :: rest =>
      let '(a, b, c, d, e) := h in
      let '(f, k) := round_fk t b c d in
      rounds (S t) rest (w32 (rotl 5 a + f + e + k + w), a, rotl 30 b, c, d)
  end.

Definition compress (h : Z * Z * Z * Z * Z) (block : list Z) : Z * Z * Z * Z * Z :=
  let '(h0, h1, h2, h3, h4) := h in
  let '(a, b, c, d, e) := rounds 0 (rev (schedule 64 (rev block))) h in
  (w32 (h0 + a), w32 (h1 + b), w32 (h2 + c), w32 (h3 + d), w32 (h4 + e)).

Fixpoint blocks (fuel : nat) (ws : list Z) (h : Z * Z * Z * Z * Z) : Z * Z * Z * Z * Z :=
  match fuel, ws with
  | S fuel', _ :: _ => blocks fuel' (drop 16 ws) (compress h (take 16 ws))
  | _, _ => h
  end.

Definition hex_digit (x : Z) : Ascii.ascii :=
  Ascii.ascii_of_N (Z.to_N (if (x <? 10)%Z then 48 + x else 87 + x)).

Fixpoint hex (n : nat) (x : Z) : string :=
  match n with
  | O => EmptyString
  | S n' => String (hex_digit (Z.land (Z.shiftr x (4 * Z.of_nat n')) 15)) (hex n' x)
  end.

Definition sha1_hexdigest (s : string) : string :=
  let bs := pad (bytes_of s) in
  let ws := words (length bs) bs in
  let '(h0, h1, h2, h3, h4) :=
    blocks (length ws) ws
      (1732584193, 4023233417, 2562383102, 271733878, 3285377520)%Z in
  hex 8 h0 +:+ hex 8 h1 +:+ hex 8 h2 +:+ hex 8 h3 +:+ hex 8 h4.


(** *** Floats as text *)

Definition is_digit (c : Ascii.ascii) : bool :=
  let n := Ascii.N_of_ascii c in (48 <=? n)%N && (n <=? 57)%N.

(** Reads the leading digits of [s] onto [acc]: the value, how many digits
    were read, and the rest of the text. *)
Fixpoint digits (s : string) (acc : Z) (n : nat) : Z * nat * string :=
  match s with
  | String c rest =>
      if is_digit c
      then digits rest (10 * acc + (Z.of_N (Ascii.N_of_ascii c) - 48))%Z (S n)
      else (acc, n, s)
  | EmptyString => (acc, n, s)
  end.

Definition spec_of (neg : bool) (m : Z) : spec_float :=
  match m with
  | Zpos p => S754_finite neg p 0
  | _ => S754_zero neg
  end.

(** [float(s)] on a plain decimal literal (sign, digits, optional fraction):
    the literal's value, correctly rounded.  CPython accepts more (exponents,
    [inf], [nan], surrounding blanks, underscores); this instance rejects
    every other text. *)
Definition float_of_str (s : string) : Res float :=
  let '(neg, s1) :=
    match s with
    | String "-"%char rest => (true, rest)
    | String "+"%char rest => (false, rest)
    | _ => (false, s)
    end in
  let '(whole, ni, s2) := digits s1 0 0 in
  let '(m, nf, s3) :=
    match s2 with
    | String "."%char rest => digits rest whole 0
    | _ => (whole, 0, s2)
    end in
  if (ni + nf =? 0) || negb (String.eqb s3 "") then Raise ValueError
  else Ok (SF2Prim (SFdiv prec emax (spec_of neg m) (spec_of false (10 ^ Z.of_nat nf)))).

Fixpoint zeros (n : nat) : string :=
  match n with
  | O => ""
  | S n' => String "0"%char (zeros n')
  end.

(** Drops the zeros at the end of a fraction, keeping one digit. *)
Fixpoint trim (s : string) : string :=
  match s with
  | EmptyString => "0"
  | String c rest =>
      match trim rest with
      | String "0"%char EmptyString =>
          if Ascii.eqb c "0"%char then "0" else String c EmptyString
      | t =>
          match rest with
          | EmptyString => String c EmptyString
          | _ => String c t
          end
      end
  end.

(** [str(x)]: the exact decimal expansion of [x] with at least one digit after
    the point.  On integer-valued floats below 1e16, on zeros, [inf] and [nan]
    this is CPython's text; elsewhere CPython prints the shortest text that
    reads back as [x]. *)
Definition str_of_float (x : float) : string :=
  match Prim2SF x with
  | S754_nan => "nan"
  | S754_infinity s => if s then "-inf" else "inf"
  | S754_zero s => if s then "-0.0" else "0.0"
  | S754_finite s m e =>
      let sign := if s then "-" else "" in
      match e with
      | Zneg k =>
          let scale := (10 ^ Zpos k)%Z in
          let n := (Zpos m * 5 ^ Zpos k)%Z in
          let frac := pretty (n mod scale)%Z in
          sign +:+ pretty (n / scale)%Z +:+ "."
            +:+ trim (zeros (Pos.to_nat k - String.length frac) +:+ frac)
      | _ => sign +:+ pretty (Zpos m * 2 ^ e)%Z +:+ ".0"
      end
  end.

(** *** Paths, as [pathlib] on POSIX *)

Fixpoint split (s cur : string) : list string :=
  match s with
  | EmptyString => [cur]
  | String c rest =>
      if Ascii.eqb c "/"%char then cur :: split rest ""
      else split rest (cur +:+ String c EmptyString)
  end.

Definition parts (s : string) : list string :=
  List.filter (fun c => negb (String.eqb c "") && negb (String.eqb c ".")) (split s "").

Definition root (s : string) : string :=
  match s with
  | String "/"%char (String "/"%char (String "/"%char _)) => "/"
  | String "/"%char (String "/"%char _) => "//"
  | String "/"%char _ => "/"
  | _ => ""
  end.

Fixpoint join (cs : list string) : string :=
  match cs with
  | [] => ""
  | [c] => c
  | c :: rest => c +:+ "/" +:+ join rest
  end.

Definition render (r : string) (cs : list string) : string :=
  match r, cs with
  | EmptyString, [] => "."
  | _, _ => r +:+ join cs
  end.

Definition path_str (s : string) : string := render (root s) (parts s).

Definition path_join (a b : string) : string := render (root a) (parts a ++ [b]).

(** *** The clock's text and the sleep *)

(** The integer part of a finite float, rounded down. *)
Definition floor (x : spec_float) : Z :=
  match x with
  | S754_finite s m e =>
      let n := if s then Zneg m else Zpos m in
      match e with
      | Zneg k => (n / 2 ^ Zpos k)%Z
      | _ => (n * 2 ^ e)%Z
      end
  | _ => 0%Z
  end.

Definition two_digits (n : Z) : string :=
  (if (n <? 10)%Z then "0" else "") +:+ pretty n.

(** The civil date of a day number counted from 1970-01-01. *)
Definition civil (days : Z) : Z * Z * Z :=
  let z := (days + 719468)%Z in
  let era := (z / 146097)%Z in
  let doe := (z - era * 146097)%Z in
  let yoe := ((doe - doe / 1460 + doe / 36524 - doe / 146096) / 365)%Z in
  let doy := (doe - (365 * yoe + yoe / 4 - yoe / 100))%Z in
  let mp := ((5 * doy + 2) / 153)%Z in
  let d := (doy - (153 * mp + 2) / 5 + 1)%Z in
  let m := (if (mp <? 10)%Z then mp + 3 else mp - 9)%Z in
  ((yoe + era * 400 + (if (m <=? 2)%Z then 1 else 0))%Z, m, d).

(** [time.strftime("%Y-%m-%d %H:%M:%S", time.localtime(t))] with the local
    zone at UTC and a [localtime] that covers the years 1970 to 9999. *)
Definition strftime_local (t : float) : Res string :=
  match Prim2SF t with
  | S754_nan => Raise ValueError
  | S754_infinity _ => Raise OverflowError
  | x =>
      let secs := floor x in
      if (0 <=? secs)%Z && (secs <? 253402300800)%Z then
        let '(y, m, d) := civil (secs / 86400)%Z in
        let s := (secs mod 86400)%Z in
        Ok (pretty y +:+ "-" +:+ two_digits m +:+ "-" +:+ two_digits d +:+ " "
            +:+ two_digits (s / 3600)%Z +:+ ":" +:+ two_digits (s mod 3600 / 60)%Z
            +:+ ":" +:+ two_digits (s mod 60)%Z)
      else Raise OverflowError
  end.

(** [time.sleep(d)] rejects a value that is not a number, one whose
    nanoseconds do not fit 64 bits, and a negative one. *)
Definition sleep_error (d : float) : option Exn :=
  let ns := PrimFloat.mul d 1000000000%float in
  if PrimFloat.is_nan d then Some ValueError
  else if PrimFloat.ltb ns (-9223372036854775808)%float
          || PrimFloat.leb 9223372036854775808%float ns then Some OverflowError
  else if PrimFloat.ltb d 0%float then Some ValueError
  else None.

(** The instance. *)
Definition lib : PyLib :=
  Build_PyLib float_of_str str_of_float sha1_hexdigest path_str path_join
    strftime_local sleep_error.

End Sample.

(** ** A small world for the worked examples *)

Module Demo.

(** A client with both refresh methods, one with the whole-library refresh
    only, one with neither, and one whose item refresh raises. *)
Definition emby : ServiceInfo :=
  {| instance := {| is_inactive := false;
                    refresh_library_by_items := Some (fun _ => Ok tt);
                    refresh_root_library := Some (Ok tt) |} |}.

Definition jellyfin : ServiceInfo :=
  {| instance := {| is_inactive := false;
                    refresh_library_by_items := None;
                    refresh_root_library := Some (Ok tt) |} |}.

Definition bare : ServiceInfo :=
  {| instance := {| is_inactive := false;
                    refresh_library_by_items := None;
                    refresh_root_library := None |} |}.

Definition plex : ServiceInfo :=
  {| instance := {| is_inactive := false;
                    refresh_library_by_items :=
                      Some (fun _ => Raise (ClientError "connection refused"));
                    refresh_root_library := None |} |}.

(** The clock: 2025-11-04 12:06:40 UTC at the first reading, one second more
    at each further one. *)
Definition clock (n : nat) : float :=
  PrimFloat.add 1762258000%float (PrimFloat.of_uint63 (Uint63.of_Z (Z.of_nat n))).

(** A host with the configuration directory [/config], on which the servers
    [services] are set up, the registry answering with those whose names are
    asked for, and whose file operations fail as [fault] says. *)
Definition world (services : Dict ServiceInfo) (fault : FsOp -> option Exn) : Env :=
  {| CONFIG_PATH := "/config";
     time_time := clock;
     get_services := fun _ names =>
                       List.filter (fun entry => existsb (String.eqb entry.1) names) services;
     fs_fault := fault |}.

Definition sound : FsOp -> option Exn := fun _ => None.

(** The emby server once it has gone offline, and a registry that finds it
    connected when first asked and offline from then on. *)
Definition offline : ServiceInfo :=
  {| instance := {| is_inactive := true;
                    refresh_library_by_items := Some (fun _ => Ok tt);
                    refresh_root_library := Some (Ok tt) |} |}.

Definition fading : Env :=
  {| CONFIG_PATH := "/config";
     time_time := clock;
     get_services := fun n _ =>
                       match n with
                       | O => [("emby", emby)]
                       | S _ => [("emby", offline)]
                       end;
     fs_fault := sound |}.

(** A registry that finds emby alone when first asked, and jellyfin before
    emby from then on. *)
Definition growing : Env :=
  {| CONFIG_PATH := "/config";
     time_time := clock;
     get_services := fun n _ =>
                       match n with
                       | O => [("emby", emby)]
                       | S _ => [("jellyfin", jellyfin); ("emby", emby)]
                       end;
     fs_fault := sound |}.


(** The plugin, enabled, with the delay [d] and every server selected. *)
Definition plugin (d : PyVal) : Plugin :=
  init_plugin new_plugin
    (Some {| enabled := VBool true;
             delay := d;
             mediaservers := ["emby"; "jellyfin"; "plex"; "bare"] |}).

Definition heat : MediaInfo :=
  {| title := "Heat"; year := "1995"; type := "movie"; category := "" |}.

Definition target : string := "/media/movies/Heat (1995)".

Definition transfer : TransferInfo :=
  {| target_diritem := Some {| path := Some target |} |}.

Definition event : Event :=
  {| event_data := Some {| mediainfo := Some heat; transferinfo := Some transfer |} |}.

(** The same notification without its [mediainfo]. *)
Definition bare_event : Event :=
  {| event_data := Some {| mediainfo := None; transferinfo := Some transfer |} |}.


Definition lock_path : string := lock_file Sample.lib (world [] sound) target.

(** A fresh machine, and one on which the lock of the target holds [text]. *)
Definition fresh : State :=
  {| clock_reads := 0; registry_queries := 0; files := ∅; dirs := ∅; trace := [] |}.

Definition holding (text : string) : State :=
  {| clock_reads := 0;
     registry_queries := 0;
     files := {[ lock_path := text ]};
     dirs := {[ lock_dir Sample.lib (world [] sound) ]};
     trace := [] |}.

End Demo.

(** ** The instance and the handler at work *)

Example sha1_of_abc :
  Sample.sha1_hexdigest "abc" = "a9993e364706816aba3e25717850c26c9cd0d89d".
Proof. vm_compute. reflexivity. Qed.

Example sha1_of_two_blocks :
  Sample.sha1_hexdigest "abcdbcdecdefdefgefghfghighijhijkijkljklmklmnlmnomnopnopq"
  = "84983e441c3bd26ebaae4aa1f95129e5e54670f1".
Proof. vm_compute. reflexivity. Qed.

Example float_of_plain_text :
  Sample.float_of_str "1762258030.5" = Ok 1762258030.5%float /\
  Sample.float_of_str "-2.50" = Ok (-2.5)%float /\
  Sample.float_of_str "soon" = Raise ValueError /\
  Sample.float_of_str "" = Raise ValueError.
Proof. repeat split; vm_compute; reflexivity. Qed.

Example str_of_whole_float :
  Sample.str_of_float 1762258060%float = "1762258060.0" /\
  Sample.str_of_float (-3.25)%float = "-3.25".
Proof. split; vm_compute; reflexivity. Qed.

Example paths_as_pathlib :
  Sample.path_str "/media/movies//Heat (1995)/" = "/media/movies/Heat (1995)" /\
  Sample.path_str "a/./b" = "a/b" /\
  Sample.path_join "/" "media_refresh_lock" = "/media_refresh_lock".
Proof. repeat split; vm_compute; reflexivity. Qed.

Example strftime_at_utc :
  Sample.strftime_local 1762258000%float = Ok "2025-11-04 12:06:40" /\
  Sample.strftime_local 951782400%float = Ok "2000-02-29 00:00:00" /\
  Sample.strftime_local infinity = Raise OverflowError.
Proof. repeat split; vm_compute; reflexivity. Qed.

Example sleep_rejects :
  Sample.sleep_error 60%float = None /\
  Sample.sleep_error 0%float = None /\
  Sample.sleep_error (-1)%float = Some ValueError /\
  Sample.sleep_error nan = Some ValueError.
Proof. repeat split; vm_compute; reflexivity. Qed.

Example lock_path_of_target :
  Demo.lock_path
  = "/config/media_refresh_lock/32f6650f3e3edfad01fed2b67c32fe28b025cfb1.lock".
Proof. vm_compute. reflexivity. Qed.

(** A first notification with a delay of 60 seconds: the lock is written with
    the run time, the handler sleeps, and both servers are refreshed, each by
    the method it has. *)
Example first_notification :
  let env := Demo.world [("emby", Demo.emby); ("jellyfin", Demo.jellyfin)] Demo.sound in
  let run := refresh Sample.lib (Demo.plugin (VStr "60")) Demo.event env Demo.fresh in
  run.1 = Ok tt /\
  files run.2 !! Demo.lock_path = Some "1762258060.0" /\
  trace run.2
  = [EvLog Info (MsgLockPath Demo.lock_path);
     EvFs (FsExists Demo.lock_path);
     EvFs (FsMkdir "/config/media_refresh_lock");
     EvFs (FsTouch Demo.lock_path);
     EvFs (FsOpenWrite Demo.lock_path);
     EvFs (FsWrite Demo.lock_path "1762258060.0");
     EvLog Info (MsgScheduled "2025-11-04 12:07:40");
     EvLog Info (MsgDelay (VStr "60"));
     EvSleep 60;
     EvRefreshItems "emby"
       [{| item_title := "Heat"; item_year := "1995"; item_type := "movie";
           item_category := ""; target_path := Demo.target |}];
     EvRefreshRoot "jellyfin"].
Proof. repeat split; vm_compute; reflexivity. Qed.

(** A disabled plugin does nothing at all. *)
Example disabled_plugin :
  refresh Sample.lib new_plugin Demo.event (Demo.world [("emby", Demo.emby)] Demo.sound)
    Demo.fresh
  = (Ok tt, Demo.fresh).
Proof. reflexivity. Qed.

(** ** Basic facts *)

Lemma emits_nil st : emits [] st = st.
Proof. destruct st; unfold emits; simpl. by rewrite app_nil_r. Qed.

Lemma emit_emits ev st : emit ev st = emits [ev] st.
Proof. reflexivity. Qed.

Lemma emits_emits evs1 evs2 st : emits evs2 (emits evs1 st) = emits (evs1 ++ evs2) st.
Proof. unfold emits; simpl. by rewrite app_assoc. Qed.

Lemma count_app f evs1 evs2 : count f (evs1 ++ evs2) = count f evs1 + count f evs2.
Proof. unfold count. by rewrite List.filter_app, length_app. Qed.

Lemma bind_ok {A B} (m : M A) (k : A -> M B) env st a st' :
  m env st = (Ok a, st') -> bind m k env st = k a env st'.
Proof. unfold bind. by intros ->. Qed.

(** ** The dispatch loop *)

Lemma dispatch_one_run name service items env st :
  dispatch_one name service items env st
  = (service_call service items, emit (service_effect name service items) st).
Proof.
  unfold dispatch_one, service_call, service_effect.
  destruct (refresh_library_by_items (instance service)) as [call|]; [reflexivity|].
  destruct (refresh_root_library (instance service)) as [outcome|]; reflexivity.
Qed.

Lemma dispatch_cons name service rest items env st :
  dispatch ((name, service) :: rest) items env st
  = match service_call service items with
    | Ok _ => dispatch rest items env (emit (service_effect name service items) st)
    | Raise e => (Raise e, emit (service_effect name service items) st)
    end.
Proof.
  simpl. unfold bind. rewrite dispatch_one_run.
  destruct (service_call service items); reflexivity.
Qed.

(** Services that return are passed one after the other. *)
Lemma dispatch_returning pre rest items env st :
  Forall (returns items) pre ->
  dispatch (pre ++ rest) items env st
  = dispatch rest items env (emits (effects_of pre items) st).
Proof.
  intros Hpre. revert st.
  induction Hpre as [|[name service] pre Hret _ IH]; intros st.
  - simpl. by rewrite emits_nil.
  - rewrite <- app_comm_cons, dispatch_cons.
    unfold returns in Hret; simpl in Hret. rewrite Hret.
    rewrite IH, emit_emits, emits_emits. reflexivity.
Qed.


(** Whatever happens, the loop adds the effects of a prefix of the services. *)
Lemma dispatch_trace services items env st :
  exists k, (dispatch services items env st).2
            = emits (effects_of (take k services) items) st.
Proof.
  revert st. induction services as [|[name service] rest IH]; intros st.
  - exists 0. simpl. by rewrite emits_nil.
  - rewrite dispatch_cons. destruct (service_call service items).
    + destruct (IH (emit (service_effect name service items) st)) as [k Hk].
      exists (S k). rewrite Hk, emit_emits, emits_emits. reflexivity.
    + exists 1. destruct rest; reflexivity.
Qed.

Lemma count_effects_other f name services items :
  (forall n s, f (service_effect n s items) = true -> n = name) ->
  name ∉ map fst services ->
  count f (effects_of services items) = 0.
Proof.
  intros Hf. induction services as [|[n s] rest IH]; intros Hnotin; [reflexivity|].
  simpl in Hnotin. apply not_elem_of_cons in Hnotin as [Hne Hrest].
  unfold effects_of, count in *. simpl.
  destruct (f (service_effect n s items)) eqn:E.
  - apply Hf in E. congruence.
  - by apply IH.
Qed.

Lemma root_call_names name n s items :
  is_root_call name (service_effect n s items) = true -> n = name.
Proof.
  unfold service_effect.
  destruct (refresh_library_by_items _); [discriminate|].
  destruct (refresh_root_library _); [|discriminate].
  simpl. by intros ?%String.eqb_eq.
Qed.

Lemma item_call_names name n s items :
  is_item_call name (service_effect n s items) = true -> n = name.
Proof.
  unfold service_effect.
  destruct (refresh_library_by_items _).
  - simpl. by intros ?%String.eqb_eq.
  - destruct (refresh_root_library _); discriminate.
Qed.

(** ** Frames *)

Lemma steady_refl ok st : steady ok st st.
Proof. repeat split. exists []. by rewrite app_nil_r. Qed.

Lemma steady_trans ok st1 st2 st3 :
  steady ok st1 st2 -> steady ok st2 st3 -> steady ok st1 st3.
Proof.
  intros (Hf1 & Hd1 & new1 & Ht1 & Hok1) (Hf2 & Hd2 & new2 & Ht2 & Hok2).
  repeat split; [congruence | congruence |].
  exists (new1 ++ new2). rewrite Ht2, Ht1, app_assoc. split; [done|].
  rewrite forallb_app. by rewrite Hok1, Hok2.
Qed.

Lemma steady_weaken (ok ok' : Effect -> bool) st st' :
  (forall ev, ok ev = true -> ok' ev = true) -> steady ok st st' -> steady ok' st st'.
Proof.
  intros Himp (Hf & Hd & new & Ht & Hok). repeat split; [done..|].
  exists new. split; [done|].
  rewrite forallb_forall in *. auto.
Qed.

Lemma steady_emits ok evs st : forallb ok evs = true -> steady ok st (emits evs st).
Proof. intros Hok. repeat split. by exists evs. Qed.

Lemma steady_emit ok ev st : ok ev = true -> steady ok st (emit ev st).
Proof. intros Hok. apply steady_emits. simpl. by rewrite Hok. Qed.

Lemma steady_bind ok {A B} (m : M A) (k : A -> M B) env st :
  steady ok st (m env st).2 ->
  (forall a st1, steady ok st1 (k a env st1).2) ->
  steady ok st (bind m k env st).2.
Proof.
  intros Hm Hk. unfold bind. destruct (m env st) as [[a|e] st1]; simpl in *.
  - eapply steady_trans; [exact Hm | apply Hk].
  - exact Hm.
Qed.

Lemma count_none ok f evs :
  (forall ev, ok ev = true -> f ev = false) -> forallb ok evs = true -> count f evs = 0.
Proof.
  intros Himp Hok. unfold count. induction evs as [|ev evs IH]; [reflexivity|].
  simpl in *. apply andb_prop in Hok as [Hev Hevs].
  rewrite (Himp _ Hev). by apply IH.
Qed.

(** ** The resolution of the services *)

Lemma log_run lvl msg env st : log lvl msg env st = (Ok tt, emit (EvLog lvl msg) st).
Proof. reflexivity. Qed.

Lemma active_services_steady services acc env st :
  steady is_log st (active_services services acc env st).2.
Proof.
  revert acc st. induction services as [|[name info] rest IH]; intros acc st; simpl.
  - apply steady_refl.
  - destruct (is_inactive (instance info)); [|apply IH].
    apply steady_bind; [by apply steady_emit | intros; apply IH].
Qed.

Lemma active_services_clock services acc env st :
  clock_reads (active_services services acc env st).2 = clock_reads st.
Proof.
  revert acc st. induction services as [|[name info] rest IH]; intros acc st; simpl.
  - reflexivity.
  - destruct (is_inactive (instance info)); [|apply IH].
    unfold bind. simpl. by rewrite IH.
Qed.

(** The loop never raises, and what it returns does not depend on the state. *)
Lemma active_services_value services acc env :
  exists active, forall st, (active_services services acc env st).1 = Ok active.
Proof.
  revert acc. induction services as [|[name info] rest IH]; intros acc; simpl.
  - by exists acc.
  - destruct (is_inactive (instance info)); [|apply IH].
    destruct (IH acc) as [active Hactive]. exists active. intros st.
    unfold bind. simpl. apply Hactive.
Qed.



Lemma query_services_steady ok names env st :
  steady ok st (query_services names env st).2.
Proof. repeat split. exists []. simpl. by rewrite app_nil_r. Qed.

Lemma service_infos_steady self env st :
  steady is_log st (service_infos self env st).2.
Proof.
  unfold service_infos. destruct (_mediaservers self) as [|name names].
  { apply steady_bind; [by apply steady_emit | intros; apply steady_refl]. }
  apply steady_bind; [apply query_services_steady|]. intros [|entry services] st1.
  { apply steady_bind; [by apply steady_emit | intros; apply steady_refl]. }
  apply steady_bind; [apply active_services_steady|]. intros [|? ?] st2.
  - apply steady_bind; [by apply steady_emit | intros; apply steady_refl].
  - apply steady_refl.
Qed.

Lemma service_infos_clock self env st :
  clock_reads (service_infos self env st).2 = clock_reads st.
Proof.
  unfold service_infos. destruct (_mediaservers self) as [|name names]; [reflexivity|].
  unfold bind, query_services. simpl.
  destruct (get_services env (registry_queries st) (name :: names)) as [|entry services];
    [reflexivity|].
  match goal with |- context [active_services ?l ?a ?e ?s] =>
    pose proof (active_services_clock l a e s) as Hclock;
    destruct (active_services l a e s) as [[[|? ?]|?] st2]
  end; simpl in *; exact Hclock.
Qed.

Lemma service_infos_returns self env st :
  exists infos, (service_infos self env st).1 = Ok infos.
Proof.
  unfold service_infos. destruct (_mediaservers self) as [|name names]; [by eexists|].
  unfold bind, query_services. simpl.
  destruct (get_services env (registry_queries st) (name :: names)) as [|entry services];
    [by eexists|].
  match goal with |- context [active_services ?l ?a ?e ?s] =>
    destruct (active_services_value l a e) as [active Hactive];
    specialize (Hactive s);
    destruct (active_services l a e s) as [[[|? ?]|?] st2]
  end; simpl in *; try discriminate; by eexists.
Qed.

(** What the resolution of the services leaves behind. *)
Lemma service_infos_frame self env st infos st1 :
  service_infos self env st = (infos, st1) ->
  files st1 = files st /\ dirs st1 = dirs st /\ clock_reads st1 = clock_reads st /\
  exists logs, trace st1 = trace st ++ logs /\ forallb is_log logs = true.
Proof.
  intros Hsvc.
  pose proof (service_infos_steady self env st) as (Hf & Hd & Ht).
  pose proof (service_infos_clock self env st) as Hc.
  rewrite Hsvc in Hf, Hd, Ht, Hc. by repeat split.
Qed.

Lemma logs_counts logs :
  forallb is_log logs = true ->
  count is_call logs = 0 /\ count is_sleep logs = 0 /\ count is_fs logs = 0.
Proof.
  intros Hlogs. repeat split; (eapply count_none; [|exact Hlogs]); by intros [].
Qed.

(** ** The dispatch phase *)

Lemma service_effect_quiet name service items :
  is_log_or_call (service_effect name service items) = true.
Proof.
  unfold service_effect.
  destruct (refresh_library_by_items _); [reflexivity|].
  destruct (refresh_root_library _); reflexivity.
Qed.

Lemma effects_of_quiet services items :
  forallb is_log_or_call (effects_of services items) = true.
Proof.
  induction services as [|[name service] rest IH]; [reflexivity|].
  unfold effects_of in *. simpl. by rewrite service_effect_quiet.
Qed.

Lemma dispatch_steady services items env st :
  steady is_log_or_call st (dispatch services items env st).2.
Proof.
  destruct (dispatch_trace services items env st) as [k ->].
  apply steady_emits, effects_of_quiet.
Qed.


Lemma log_is_quiet ev : is_log ev = true -> is_log_or_call ev = true.
Proof. unfold is_log_or_call. by intros ->. Qed.

Lemma refresh_servers_steady lib self event_info p env st :
  steady is_log_or_call st (refresh_servers lib self event_info p env st).2.
Proof.
  unfold refresh_servers. destruct (mediainfo event_info) as [mi|]; [|apply steady_refl].
  apply steady_bind.
  - eapply steady_weaken; [apply log_is_quiet | apply service_infos_steady].
  - intros [services|] st1; [apply dispatch_steady | apply steady_refl].
Qed.


(** ** The lock step, run symbolically *)

Section LockStep.

Variable lib : PyLib.

Lemma fs_do_ok {A} op (act : State -> Res A * State) env st :
  fs_fault env op = None -> fs_do op act env st = act (emit (EvFs op) st).
Proof. unfold fs_do. by intros ->. Qed.

Lemma fs_do_fault {A} op (act : State -> Res A * State) env st e :
  fs_fault env op = Some e -> fs_do op act env st = (Raise e, emit (EvFs op) st).
Proof. unfold fs_do. by intros ->. Qed.

Lemma is_file_true p st content : files st !! p = Some content -> is_file p st = true.
Proof. intros H. unfold is_file. apply bool_decide_eq_true. by rewrite H. Qed.

Lemma is_file_false p st : files st !! p = None -> is_file p st = false.
Proof. intros H. unfold is_file. apply bool_decide_eq_false. rewrite H. by intros [? ?]. Qed.

Lemma is_dir_false p st : p ∉ dirs st -> is_dir p st = false.
Proof. intros H. unfold is_dir. by apply bool_decide_eq_false. Qed.











(** The [try] statement on a lock that cannot be read or does not hold a
    number: nothing is written, the failure is logged, the handler goes on. *)
Lemma try_lock_failed tp parent lp d env st l e :
  match l with
  | LockUnreadable e' | LockCorrupt _ e' => e' = e
  | _ => False
  end ->
  lock_is lib env st lp l ->
  try_lock lib tp parent lp d env st
  = (Ok true, emit (EvLog Info (MsgLockFailed e)) (emits (lock_checks lp l) st)).
Proof.
  intros He Hl. unfold try_lock, try_except, bind, lock_pending, path_exists, open_read, read, bind.
  destruct l as [| | |e'|content e']; try done; subst e'; simpl in Hl.
  - destruct Hl as ([content Hfile] & Hex & Hopen).
    rewrite (fs_do_ok _ _ _ _ Hex).
    change (is_file lp (emit ?e st)) with (is_file lp st).
    rewrite (is_file_true _ _ _ Hfile). simpl.
    rewrite (fs_do_fault _ _ _ _ _ Hopen).
    unfold log, effect, ret, emit, emits. simpl. rewrite <- !app_assoc. reflexivity.
  - destruct Hl as (Hfile & Hne & Hex & Hopen & Hread & Hparse).
    rewrite (fs_do_ok _ _ _ _ Hex).
    change (is_file lp (emit ?e st)) with (is_file lp st).
    rewrite (is_file_true _ _ _ Hfile). simpl.
    rewrite (fs_do_ok _ _ _ _ Hopen).
    change (is_file lp (emit ?e ?s)) with (is_file lp st).
    rewrite (is_file_true _ _ _ Hfile).
    rewrite (fs_do_ok _ _ _ _ Hread). simpl. rewrite Hfile. simpl.
    apply String.eqb_neq in Hne. rewrite Hne. simpl.
    unfold lift. rewrite Hparse.
    unfold log, effect, ret, emit, emits. simpl. rewrite <- !app_assoc. reflexivity.
Qed.

(** The [try] statement never raises: every error is caught. *)
Lemma try_lock_returns tp parent lp d env st :
  exists go, (try_lock lib tp parent lp d env st).1 = Ok go.
Proof.
  unfold try_lock, try_except.
  match goal with |- context [bind ?m ?k env st] => destruct (bind m k env st) as [[go|e] st1] end.
  - by exists go.
  - by exists true.
Qed.



(** The handler up to the delay: what is left once the guards are passed. *)
Lemma refresh_reach self event event_info services p env st st1 :
  py_bool (_enabled self) = true ->
  event_data event = Some event_info ->
  service_infos self env st = (Ok (Some services), st1) ->
  target_of event_info = Some p ->
  refresh lib self event env st
  = bind (if py_bool (_delay self) then delayed lib self p else ret true)
      (fun go => if go then refresh_servers lib self event_info p else ret tt) env st1.
Proof.
  intros Hen Hev Hsvc Htarget. unfold refresh. rewrite Hen, Hev. simpl.
  rewrite (bind_ok _ _ _ _ _ _ Hsvc). by rewrite Htarget.
Qed.

End LockStep.

(** ** Comparison of floats *)



(** ** The footprint of the lock step, whatever fails *)

Section Footprint.

Variable lib : PyLib.

Lemma extends_trans ok st1 st2 st3 :
  extends ok st1 st2 -> extends ok st2 st3 -> extends ok st1 st3.
Proof.
  intros (new1 & Ht1 & Hok1) (new2 & Ht2 & Hok2).
  exists (new1 ++ new2). rewrite Ht2, Ht1, app_assoc. split; [done|].
  rewrite forallb_app. by rewrite Hok1, Hok2.
Qed.

Lemma extends_weaken (ok ok' : Effect -> bool) st st' :
  (forall ev, ok ev = true -> ok' ev = true) -> extends ok st st' -> extends ok' st st'.
Proof.
  intros Himp (new & Ht & Hok). exists new. split; [done|].
  rewrite forallb_forall in *. auto.
Qed.

Lemma extends_emit ok ev st : ok ev = true -> extends ok st (emit ev st).
Proof. intros Hok. exists [ev]. simpl. by rewrite Hok. Qed.

Lemma steady_extends ok st st' : steady ok st st' -> extends ok st st'.
Proof. by intros (_ & _ & Hext). Qed.

Lemma keeps_but_trans lp parent st1 st2 st3 :
  keeps_but lp parent st1 st2 -> keeps_but lp parent st2 st3 -> keeps_but lp parent st1 st3.
Proof.
  intros [Hf1 Hd1] [Hf2 Hd2]. split.
  - intros q Hq. by rewrite Hf2, Hf1.
  - intros x Hx. apply Hd2 in Hx. apply elem_of_union in Hx as [Hx|Hx].
    + apply elem_of_union. by left.
    + by apply Hd1.
Qed.

Lemma steady_keeps ok lp parent st st' : steady ok st st' -> keeps_but lp parent st st'.
Proof.
  intros (Hf & Hd & _). split.
  - intros q _. by rewrite Hf.
  - rewrite Hd. apply union_subseteq_r.
Qed.

Lemma keeps_but_emit lp parent ev st : keeps_but lp parent st (emit ev st).
Proof. split; [done|]. apply union_subseteq_r. Qed.

Lemma not_write_in q data new :
  forallb is_not_write new = true -> ~ In (EvFs (FsWrite q data)) new.
Proof.
  rewrite forallb_forall. intros Hall Hin. by apply Hall in Hin.
Qed.

Lemma lock_writes_none env d lp st st' :
  extends is_not_write st st' -> lock_writes lib env d lp st st'.
Proof.
  intros (new & Ht & Hok). exists new. split; [done|].
  intros q data Hin. by apply not_write_in in Hin.
Qed.

Lemma lock_writes_pre env d lp st st1 st2 :
  extends is_not_write st st1 -> lock_writes lib env d lp st1 st2 ->
  lock_writes lib env d lp st st2.
Proof.
  intros (new1 & Ht1 & Hok1) (new2 & Ht2 & Hw).
  exists (new1 ++ new2). rewrite Ht2, Ht1, app_assoc. split; [done|].
  intros q data Hin. apply in_app_or in Hin as [Hin|Hin]; [|by apply Hw].
  by apply not_write_in in Hin.
Qed.

Lemma lock_writes_post env d lp st st1 st2 :
  lock_writes lib env d lp st st1 -> steady is_not_write st1 st2 ->
  lock_writes lib env d lp st st2.
Proof.
  intros (new1 & Ht1 & Hw) (Hf & _ & new2 & Ht2 & Hok2).
  exists (new1 ++ new2). rewrite Ht2, Ht1, app_assoc. split; [done|].
  intros q data Hin. apply in_app_or in Hin as [Hin|Hin].
  - rewrite Hf. by apply Hw.
  - by apply not_write_in in Hin.
Qed.

Lemma probe_not_write ev : is_probe ev = true -> is_not_write ev = true.
Proof. by destruct ev as [| [] | | |]. Qed.

Lemma probe_log_or_fs ev : is_probe ev = true -> is_log_or_fs ev = true.
Proof. by destruct ev as [| [] | | |]. Qed.

(** The check of the lock only looks. *)
Lemma lock_pending_steady tp lp env st :
  steady is_probe st (lock_pending lib tp lp env st).2.
Proof.
  unfold lock_pending, path_exists, open_read, read, bind, fs_do, lift, time_now,
    log, effect, ret.
  repeat (case_match; simplify_eq; cbn [fst snd]);
    (repeat split;
     [eexists; split;
      [cbn [trace emit tick]; rewrite <- ?app_assoc; reflexivity | reflexivity]]).
Qed.

(** The writing of the lock, on each of its paths. *)
Lemma write_lock_footprint parent lp d env st :
  let st' := (write_lock lib parent lp d env st).2 in
  extends is_log_or_fs st st' /\ keeps_but lp parent st st'
  /\ lock_writes lib env d lp st st'.
Proof.
  unfold write_lock, mkdir, touch, open_write, write, bind, fs_do, lift, time_now,
    log, effect, ret.
  repeat (case_match; simplify_eq; cbn [fst snd]).
  all: idtac; (split; [|split]).
  all: try (eexists; split;
            [cbn [trace emit tick set_files set_dirs]; rewrite <- ?app_assoc; reflexivity
            |reflexivity]).
  all: try (split;
            [intros q Hq; cbn [files emit tick set_files set_dirs];
             by rewrite ?lookup_insert_ne by done
            |cbn [dirs emit tick set_files set_dirs]; set_solver]).
  all: eexists;
    (split; [cbn [trace emit tick set_files set_dirs]; rewrite <- ?app_assoc; reflexivity|]).
  all: intros q data Hin; simpl in Hin;
    repeat (destruct Hin as [Hin|Hin]; try discriminate); try done.
  all: simplify_eq.
  all: cbn [clock_reads emit tick set_files set_dirs] in *.
  all: idtac; (split; [reflexivity|split; [eexists _, _; split; [reflexivity|eassumption]|]]).
  all: intros Hnf; try congruence.
  all: cbn [files emit tick set_files set_dirs]; by rewrite lookup_insert_eq.
Qed.

(** The [try] statement, on each of its paths. *)
Lemma try_lock_footprint tp parent lp d env st :
  let st' := (try_lock lib tp parent lp d env st).2 in
  extends is_log_or_fs st st' /\ keeps_but lp parent st st'
  /\ lock_writes lib env d lp st st'.
Proof.
  unfold try_lock, try_except, bind.
  pose proof (lock_pending_steady tp lp env st) as Hp.
  destruct (lock_pending lib tp lp env st) as [[[|]|e] st1]; cbn [fst snd log effect ret] in *.
  - split; [|split].
    + eapply extends_weaken; [apply probe_log_or_fs | by apply steady_extends].
    + eapply steady_keeps, Hp.
    + apply lock_writes_none. eapply extends_weaken; [apply probe_not_write|].
      by apply steady_extends.
  - destruct (write_lock_footprint parent lp d env st1) as (He & Hk & Hw).
    assert (extends is_log_or_fs st st1) as He1.
    { eapply extends_weaken; [apply probe_log_or_fs | by apply steady_extends]. }
    assert (extends is_not_write st st1) as Hn1.
    { eapply extends_weaken; [apply probe_not_write | by apply steady_extends]. }
    destruct (write_lock lib parent lp d env st1) as [[[]|e] st2]; cbn [fst snd log effect ret] in *.
    + split; [by eapply extends_trans|].
      split; [eapply keeps_but_trans; [eapply steady_keeps, Hp | done]|].
      by eapply lock_writes_pre.
    + split; [eapply extends_trans; [by eapply extends_trans | by apply extends_emit]|].
      split; [eapply keeps_but_trans;
              [eapply steady_keeps, Hp
              |eapply keeps_but_trans; [exact Hk | apply keeps_but_emit]]|].
      eapply lock_writes_post; [by eapply lock_writes_pre | by apply steady_emit].
  - split; [eapply extends_trans;
            [eapply extends_weaken; [apply probe_log_or_fs | by apply steady_extends]
            |by apply extends_emit]|].
    split; [eapply keeps_but_trans; [eapply steady_keeps, Hp | apply keeps_but_emit]|].
    apply lock_writes_none. eapply extends_trans; [|by apply extends_emit].
    eapply extends_weaken; [apply probe_not_write | by apply steady_extends].
Qed.

End Footprint.

(** ** From the guards to the dispatch *)

Section Proceeding.

Variable lib : PyLib.

Lemma lock_is_same env st st' lp l :
  files st' = files st -> dirs st' = dirs st -> clock_reads st' = clock_reads st ->
  lock_is lib env st lp l -> lock_is lib env st' lp l.
Proof. intros Hf Hd Hc. destruct l; simpl; by rewrite Hf, ?Hd, ?Hc. Qed.

(** Without a lock in the future the check never says "pending". *)
Lemma lock_pending_not_true tp lp env st l :
  lock_is lib env st lp l -> (lock_pending lib tp lp env st).1 <> Ok true.
Proof.
  intros Hl.
  unfold lock_pending, path_exists, open_read, read, bind, fs_do, lift, time_now,
    log, effect, ret.
  destruct l as [| |content lock_time|e|content e]; simpl in Hl.
  - destruct Hl as [Hfile Hdir].
    destruct (fs_fault env (FsExists lp)); [by cbn|].
    change (is_file lp (emit ?e st)) with (is_file lp st).
    change (is_dir lp (emit ?e st)) with (is_dir lp st).
    rewrite (is_file_false _ _ Hfile), (is_dir_false _ _ Hdir). by cbn.
  - destruct (fs_fault env (FsExists lp)); [by cbn|].
    destruct (is_file lp _ || is_dir lp _); [|by cbn].
    destruct (fs_fault env (FsOpenRead lp)); [by cbn|].
    change (is_file lp (emit ?e ?s)) with (is_file lp st).
    rewrite (is_file_true _ _ _ Hl).
    destruct (fs_fault env (FsRead lp)); [by cbn|].
    cbn [fst snd files emit]. rewrite Hl. by cbn.
  - destruct Hl as (Hfile & Hne & Hparse & Hlt).
    destruct (fs_fault env (FsExists lp)); [by cbn|].
    destruct (is_file lp _ || is_dir lp _); [|by cbn].
    destruct (fs_fault env (FsOpenRead lp)); [by cbn|].
    change (is_file lp (emit ?e ?s)) with (is_file lp st).
    rewrite (is_file_true _ _ _ Hfile).
    destruct (fs_fault env (FsRead lp)); [by cbn|].
    cbn [fst snd files emit]. rewrite Hfile. cbn [default from_option id].
    destruct (negb (String.eqb content "")); [|by cbn].
    rewrite Hparse. cbn [fst snd clock_reads emit]. rewrite Hlt. by cbn.
  - destruct Hl as ([content Hfile] & Hex & Hopen).
    rewrite Hex. change (is_file lp (emit ?e st)) with (is_file lp st).
    rewrite (is_file_true _ _ _ Hfile). cbn [orb]. rewrite Hopen. by cbn.
  - destruct Hl as (Hfile & Hne & Hex & Hopen & Hread & Hparse).
    rewrite Hex. change (is_file lp (emit ?e st)) with (is_file lp st).
    rewrite (is_file_true _ _ _ Hfile). cbn [orb]. rewrite Hopen.
    change (is_file lp (emit ?e ?s)) with (is_file lp st).
    rewrite (is_file_true _ _ _ Hfile), Hread.
    cbn [fst snd files emit]. rewrite Hfile. cbn [default from_option id].
    destruct (negb (String.eqb content "")); [|by cbn].
    rewrite Hparse. by cbn.
Qed.

(** Then the [try] statement lets the handler go on, whatever fails. *)
Lemma try_lock_goes tp parent lp d env st :
  (lock_pending lib tp lp env st).1 <> Ok true ->
  (try_lock lib tp parent lp d env st).1 = Ok true.
Proof.
  intros Hp. unfold try_lock, try_except, bind.
  destruct (lock_pending lib tp lp env st) as [[[|]|e] st1];
    cbn [fst snd log effect ret] in *; try done.
  by destruct (write_lock lib parent lp d env st1) as [[[]|e] st2].
Qed.



End Proceeding.

(** ** The claims about the delay and the lock *)

Section Coalescing.

Variable lib : PyLib.


End Coalescing.


Section Rewriting.

Variable lib : PyLib.




End Rewriting.


Section FailOpen.

Variable lib : PyLib.


End FailOpen.



Section TextDelay.

Variable lib : PyLib.


End TextDelay.



(** ** The claims about the dispatch loop *)

(** C1, as the code has it.  The loop has no handler around its calls.  When
    the call on a service raises, the exception ends the loop and leaves the
    handler: the services iterated before it have had their call, the ones
    after it get none.  Only when no call raises does every active service
    get its call. *)
Theorem dispatch_stops_at_failure items env st :
  (forall services,
     Forall (returns items) services ->
     dispatch services items env st = (Ok tt, emits (effects_of services items) st)) /\
  (forall pre name service post e,
     Forall (returns items) pre ->
     service_call service items = Raise e ->
     dispatch (pre ++ (name, service) :: post) items env st
     = (Raise e, emits (effects_of (pre ++ [(name, service)]) items) st)).
Proof.
  split.
  - intros services Hall.
    rewrite <- (app_nil_r services) at 1. by rewrite dispatch_returning.
  - intros pre name service post e Hpre Hraise.
    rewrite dispatch_returning by done. rewrite dispatch_cons, Hraise.
    rewrite emit_emits, emits_emits. unfold effects_of. by rewrite map_app.
Qed.

(** Emby and Jellyfin both answer; with a failing Plex between them Jellyfin
    is never called. *)
Lemma dispatch_stops_at_failure_example :
  let items := [{| item_title := "Heat"; item_year := "1995"; item_type := "movie";
                   item_category := ""; target_path := Demo.target |}] in
  let env := Demo.world [] Demo.sound in
  dispatch [("emby", Demo.emby); ("jellyfin", Demo.jellyfin)] items env Demo.fresh
  = (Ok tt,
     emits (effects_of [("emby", Demo.emby); ("jellyfin", Demo.jellyfin)] items) Demo.fresh) /\
  dispatch ([("emby", Demo.emby)] ++ ("plex", Demo.plex) :: [("jellyfin", Demo.jellyfin)])
    items env Demo.fresh
  = (Raise (ClientError "connection refused"),
     emits (effects_of ([("emby", Demo.emby)] ++ [("plex", Demo.plex)]) items) Demo.fresh).
Proof.
  intros items env.
  destruct (dispatch_stops_at_failure items env Demo.fresh) as [Hall Hfail]. split.
  - apply Hall. by repeat constructor.
  - apply Hfail; [by repeat constructor | reflexivity].
Defined.

(** C1 fails as stated: two active services, the first one's call raises.
    The exception leaves the handler and the second service, resolved and
    active, is never called. *)
Lemma failing_service_stops_dispatch :
  let env := Demo.world [("plex", Demo.plex); ("emby", Demo.emby)] Demo.sound in
  let self := Demo.plugin (VInt 0) in
  let run := refresh Sample.lib self Demo.event env Demo.fresh in
  (service_infos self env Demo.fresh).1
  = Ok (Some [("plex", Demo.plex); ("emby", Demo.emby)]) /\
  run.1 = Raise (ClientError "connection refused") /\
  trace run.2
  = [EvRefreshItems "plex"
       [{| item_title := "Heat"; item_year := "1995"; item_type := "movie";
           item_category := ""; target_path := Demo.target |}]] /\
  count (is_item_call "emby") (trace run.2) = 0 /\
  count (is_root_call "emby") (trace run.2) = 0.
Proof. repeat split; vm_compute; reflexivity. Qed.

Lemma not_in_take (name : string) k (services : Dict ServiceInfo) :
  name ∉ map fst services -> name ∉ map fst (take k services).
Proof.
  intros Hnotin Hin. apply Hnotin.
  apply list_elem_of_fmap in Hin as (entry & -> & Hentry).
  apply list_elem_of_fmap. exists entry. split; [done|].
  rewrite <- (take_drop k services). apply elem_of_app. by left.
Qed.



(** ** The claims about the handler as a whole *)

Section Whole.

Variable lib : PyLib.


Lemma quiet_counts new :
  forallb is_log_or_call new = true -> count is_fs new = 0 /\ count is_sleep new = 0.
Proof.
  intros Hnew. split; (eapply count_none; [|exact Hnew]); by intros [| | | |].
Qed.


End Whole.


Section Persisted.

Variable lib : PyLib.

Lemma quiet_not_write ev : is_log_or_call ev = true -> is_not_write ev = true.
Proof. by destruct ev as [| [] | | |]. Qed.

Lemma log_not_write ev : is_log ev = true -> is_not_write ev = true.
Proof. by destruct ev as [| [] | | |]. Qed.

(** The delay branch, on each of its paths: it touches the lock file of the
    target only, and what it writes there is the lock record. *)
Lemma delayed_footprint self p env st :
  let st' := (delayed lib self p env st).2 in
  match py_float lib (_delay self) with
  | Ok d =>
      keeps_but (lock_file lib env p) (lock_dir lib env) st st' /\
      lock_writes lib env d (lock_file lib env p) st st'
  | Raise _ => st' = st
  end.
Proof.
  unfold delayed, bind, lift.
  destruct (py_float lib (_delay self)) as [d|e]; [|reflexivity].
  rewrite log_run.
  set (st0 := emit (EvLog Info (MsgLockPath (lock_file lib env p))) st).
  destruct (try_lock_footprint lib (path_str lib p) (lock_dir lib env)
              (lock_file lib env p) d env st0) as (_ & Hk & Hw).
  assert (keeps_but (lock_file lib env p) (lock_dir lib env) st st0) as Hk0
    by apply keeps_but_emit.
  assert (extends is_not_write st st0) as He0 by by apply extends_emit.
  destruct (try_lock lib _ _ _ d env st0) as [[[|]|e] st2]; cbn [fst snd] in *.
  - rewrite log_run. unfold time_sleep.
    destruct (sleep_error lib d) as [e|]; cbn [fst snd raise effect].
    + split.
      * eapply keeps_but_trans; [exact Hk0|].
        eapply keeps_but_trans; [exact Hk | apply keeps_but_emit].
      * eapply lock_writes_post; [by eapply lock_writes_pre | by apply steady_emit].
    + split.
      * eapply keeps_but_trans; [exact Hk0|].
        eapply keeps_but_trans; [exact Hk|].
        eapply keeps_but_trans; apply keeps_but_emit.
      * eapply lock_writes_post; [by eapply lock_writes_pre|].
        eapply steady_trans; by apply steady_emit.
  - split; [by eapply keeps_but_trans | by eapply lock_writes_pre].
  - split; [by eapply keeps_but_trans | by eapply lock_writes_pre].
Qed.

(** The handler either changes nothing on disk, or it went through the delay
    branch for the target of the event. *)
Lemma refresh_footprint self event env st :
  let st' := (refresh lib self event env st).2 in
  steady is_not_write st st' \/
  exists event_info p d,
    event_data event = Some event_info /\
    target_of event_info = Some p /\
    py_float lib (_delay self) = Ok d /\
    keeps_but (lock_file lib env p) (lock_dir lib env) st st' /\
    lock_writes lib env d (lock_file lib env p) st st'.
Proof.
  unfold refresh.
  destruct (negb (py_bool (_enabled self))); [left; apply steady_refl|].
  destruct (event_data event) as [event_info|]; [|left; apply steady_refl].
  unfold bind.
  pose proof (service_infos_steady self env st) as Hs.
  apply (steady_weaken _ is_not_write _ _ log_not_write) in Hs.
  destruct (service_infos self env st) as [[[services|]|e] st1]; cbn [fst snd] in *;
    [|by left..].
  destruct (target_of event_info) as [p|] eqn:Htarget; [|by left].
  assert (forall go st2, steady is_not_write st2
            ((if go : bool then refresh_servers lib self event_info p
              else ret tt) env st2).2) as Hrest.
  { intros [|] st2; [|apply steady_refl].
    eapply steady_weaken; [apply quiet_not_write | apply refresh_servers_steady]. }
  destruct (py_bool (_delay self)).
  - pose proof (delayed_footprint self p env st1) as Hd.
    destruct (py_float lib (_delay self)) as [d|e] eqn:Hfloat.
    + right. exists event_info, p, d. repeat (split; [done|]).
      destruct Hd as [Hk Hw].
      destruct (delayed lib self p env st1) as [[go|e] st2]; cbn [fst snd] in *.
      * specialize (Hrest go st2). split.
        -- eapply keeps_but_trans; [eapply steady_keeps, Hs|].
           eapply keeps_but_trans; [exact Hk | eapply steady_keeps, Hrest].
        -- eapply lock_writes_post; [|exact Hrest].
           eapply lock_writes_pre; [by apply steady_extends | exact Hw].
      * split.
        -- eapply keeps_but_trans; [eapply steady_keeps, Hs | exact Hk].
        -- eapply lock_writes_pre; [by apply steady_extends | exact Hw].
    + left. cbn zeta in Hd.
      destruct (delayed lib self p env st1) as [[go|e'] st2]; cbn [fst snd] in *; subst st2.
      * eapply steady_trans; [exact Hs | apply Hrest].
      * exact Hs.
  - left. cbn [ret]. eapply steady_trans; [exact Hs | apply (Hrest true)].
Qed.

(** C7.  Whatever the handler writes goes to one file, the lock of the
    target path: [<CONFIG_PATH>/media_refresh_lock/<sha1 of the path>.lock].
    Every record it writes there is the text [str] gives for a run time, a
    clock reading plus the delay, which [strftime] has accepted; it is the
    whole content of the file afterwards, unless the write itself failed.  No
    other file changes. *)
Theorem only_the_lock_is_written self event env st :
  let run := refresh lib self event env st in
  exists new,
    trace run.2 = trace st ++ new /\
    (forall q, files run.2 !! q <> files st !! q ->
       exists event_info p,
         event_data event = Some event_info /\
         target_of event_info = Some p /\
         q = path_join lib
               (path_join lib (path_str lib (CONFIG_PATH env)) "media_refresh_lock")
               (sha1_hexdigest lib (path_str lib p) +:+ ".lock")) /\
    (forall q data, In (EvFs (FsWrite q data)) new ->
       exists event_info p d n,
         event_data event = Some event_info /\
         target_of event_info = Some p /\
         py_float lib (_delay self) = Ok d /\
         q = path_join lib
               (path_join lib (path_str lib (CONFIG_PATH env)) "media_refresh_lock")
               (sha1_hexdigest lib (path_str lib p) +:+ ".lock") /\
         data = str_of_float lib (PrimFloat.add (time_time env n) d) /\
         (exists at_, strftime_local lib (PrimFloat.add (time_time env n) d) = Ok at_) /\
         (fs_fault env (FsWrite q data) = None -> files run.2 !! q = Some data)).
Proof.
  intros run. subst run.
  destruct (refresh_footprint self event env st)
    as [(Hf & _ & new & Ht & Hnew)
       |(event_info & p & d & Hev & Htarget & Hfloat & [Hk _] & (new & Ht & Hw))].
  - exists new. split; [done|]. split.
    + intros q Hq. by rewrite Hf in Hq.
    + intros q data Hin. by apply not_write_in in Hin.
  - exists new. split; [done|]. split.
    + intros q Hq. exists event_info, p. split; [done|]. split; [done|].
      destruct (decide (q = lock_file lib env p)) as [->|Hne]; [done|].
      by apply Hk in Hne.
    + intros q data Hin.
      destruct (Hw q data Hin) as (-> & (n & at_ & -> & Hfmt) & Hcontent).
      exists event_info, p, d, n. repeat (split; [done|]). split; [by exists at_|done].
Qed.

End Persisted.

(** The first notification for the sample target writes
    [1762258000 + 60] to the lock of that target. *)
Lemma only_the_lock_is_written_example :
  let env := Demo.world [("emby", Demo.emby)] Demo.sound in
  let run := refresh Sample.lib (Demo.plugin (VStr "60")) Demo.event env Demo.fresh in
  let q := "/config/media_refresh_lock/32f6650f3e3edfad01fed2b67c32fe28b025cfb1.lock" in
  In (EvFs (FsWrite q "1762258060.0")) (trace run.2) /\
  files run.2 !! q = Some "1762258060.0".
Proof.
  intros env run q.
  destruct (only_the_lock_is_written Sample.lib (Demo.plugin (VStr "60")) Demo.event env
              Demo.fresh) as (new & Ht & _ & Hw).
  fold run in Ht, Hw.
  assert (In (EvFs (FsWrite q "1762258060.0")) (trace run.2)) as Hin.
  { vm_compute. repeat (first [left; reflexivity | right]). }
  split; [exact Hin|].
  rewrite Ht in Hin. cbn [trace Demo.fresh app] in Hin.
  destruct (Hw _ _ Hin) as (event_info & p & d & n & _ & _ & _ & _ & _ & _ & Hfile).
  apply Hfile. reflexivity.
Defined.

Section NoPropagation.

Variable lib : PyLib.



(** The delay branch returns when the delay converts and the sleep takes it:
    every error of the lock step is caught. *)
Lemma delayed_returns self p d env st :
  py_float lib (_delay self) = Ok d ->
  sleep_error lib d = None ->
  exists go, (delayed lib self p env st).1 = Ok go.
Proof.
  intros Hd Hsleep. unfold delayed, bind, lift. rewrite Hd, log_run.
  destruct (try_lock_returns lib (path_str lib p) (lock_dir lib env) (lock_file lib env p)
              d env (emit (EvLog Info (MsgLockPath (lock_file lib env p))) st))
    as [go Hgo].
  destruct (try_lock lib _ _ _ d env _) as [r st2]. simpl in Hgo. subst r.
  destruct go; [|by exists false].
  rewrite log_run. unfold time_sleep. rewrite Hsleep. by exists true.
Qed.


End NoPropagation.



(** ** The servers a run resolves *)

Lemma emits_cons ev evs st : emits (ev :: evs) st = emits evs (emit ev st).
Proof. by rewrite emit_emits, emits_emits. Qed.

(** The loop of [service_infos] in closed form: the active servers are put
    into the dict one after the other, and each inactive one is logged. *)
Lemma active_services_run services acc env st :
  active_services services acc env st
  = (Ok (fold_left (fun d entry => dict_set entry.1 entry.2 d)
           (List.filter is_active services) acc),
     emits (inactive_warnings services) st).
Proof.
  revert acc st. induction services as [|[name info] rest IH]; intros acc st.
  - simpl. by rewrite emits_nil.
  - simpl. unfold inactive_warnings, is_active. simpl.
    destruct (is_inactive (instance info)); simpl.
    + unfold bind. rewrite log_run, IH. by rewrite emits_cons.
    + by rewrite IH.
Qed.

Lemma dict_set_fresh {V} k (v : V) (d : Dict V) :
  k ∉ map fst d -> dict_set k v d = d ++ [(k, v)].
Proof.
  induction d as [|[k' v'] d IH]; intros Hk; [reflexivity|].
  simpl in *. apply not_elem_of_cons in Hk as [Hne Hk].
  apply String.eqb_neq in Hne. rewrite Hne. by rewrite IH.
Qed.

Lemma dict_set_not_nil {V} k (v : V) (d : Dict V) : dict_set k v d <> [].
Proof. destruct d as [|[k' v'] d]; simpl; [done|]. by destruct (String.eqb k k'). Qed.

(** Once something is in the dict, the loop cannot empty it. *)
Lemma fold_dict_set_nil {V} (l acc : Dict V) :
  fold_left (fun d entry => dict_set entry.1 entry.2 d) l acc = [] <-> l = [] /\ acc = [].
Proof.
  revert acc. induction l as [|[k v] l IH]; intros acc; simpl.
  - split; [by intros -> | by intros [_ ->]].
  - rewrite IH. split; [|by intros [? _]].
    intros [_ Hset]. by apply dict_set_not_nil in Hset.
Qed.

(** With distinct names, as the keys of a dict are, the loop appends. *)
Lemma fold_dict_set_fresh {V} (l acc : Dict V) :
  NoDup (map fst (acc ++ l)) ->
  fold_left (fun d entry => dict_set entry.1 entry.2 d) l acc = acc ++ l.
Proof.
  revert acc. induction l as [|[k v] l IH]; intros acc Hnd; simpl.
  - by rewrite app_nil_r.
  - rewrite dict_set_fresh.
    + rewrite IH; [by rewrite <- app_assoc|]. by rewrite <- app_assoc.
    + rewrite map_app in Hnd. apply NoDup_app in Hnd as (_ & Hdisj & _).
      intros Hin. apply (Hdisj k Hin). simpl. apply elem_of_cons. by left.
Qed.

Lemma filter_keys_NoDup {V} (f : string * V -> bool) (l : Dict V) :
  NoDup (map fst l) -> NoDup (map fst (List.filter f l)).
Proof.
  induction l as [|[k v] l IH]; intros Hnd; simpl; [constructor|].
  simpl in Hnd. apply NoDup_cons in Hnd as [Hk Hnd].
  destruct (f (k, v)); [|by apply IH].
  simpl. apply NoDup_cons. split; [|by apply IH].
  intros Hin. apply Hk.
  apply list_elem_of_fmap in Hin as (entry & -> & Hentry).
  apply list_elem_of_fmap. exists entry. split; [done|].
  apply list_elem_of_In in Hentry. apply List.filter_In in Hentry as [Hentry _].
  by apply list_elem_of_In.
Qed.


(** The property [service_infos] in closed form, for a plugin with servers
    selected. *)
Lemma service_infos_run self env st :
  _mediaservers self <> [] ->
  let answer := get_services env (registry_queries st) (_mediaservers self) in
  let active := fold_left (fun d entry => dict_set entry.1 entry.2 d)
                  (List.filter is_active answer) [] in
  service_infos self env st
  = (Ok (match active with [] => None | _ :: _ => Some active end),
     emits (inactive_warnings answer ++ closing_warning answer) (asked st)).
Proof.
  intros Hnames answer active. unfold service_infos.
  destruct (_mediaservers self) as [|name names] eqn:Hsel; [done|].
  unfold bind, query_services. fold answer.
  destruct answer as [|entry found] eqn:Hanswer.
  { by rewrite log_run. }
  rewrite active_services_run. fold active.
  unfold closing_warning.
  destruct active as [|first others] eqn:Hactive.
  - subst active. apply fold_dict_set_nil in Hactive as [Hfilter _].
    rewrite Hfilter, log_run. by rewrite emit_emits, emits_emits.
  - destruct (List.filter is_active (entry :: found)) as [|? ?] eqn:Hfilter.
    { subst active. simpl in Hactive. discriminate. }
    by rewrite app_nil_r.
Qed.


(** What [service_infos] returns and logs.  Nothing selected: [None], one
    warning, and the registry is not asked.  Otherwise the registry is asked
    once and the result holds the active servers of its answer, in the order
    of the answer; each inactive server is logged, and when no active one is
    left the result is [None] with a closing warning. *)
Theorem service_infos_are_the_active_ones self env st :
  let answer := get_services env (registry_queries st) (_mediaservers self) in
  let active := List.filter is_active answer in
  (_mediaservers self = [] ->
   service_infos self env st = (Ok None, emit (EvLog Warning MsgNotConfigured) st)) /\
  (_mediaservers self <> [] ->
   NoDup (map fst answer) ->
   service_infos self env st
   = (Ok (match active with [] => None | _ :: _ => Some active end),
      emits (inactive_warnings answer ++ closing_warning answer) (asked st))).
Proof.
  intros answer active. split.
  - intros Hnone. unfold service_infos. by rewrite Hnone.
  - intros Hsome Hnd. rewrite (service_infos_run self env st Hsome). fold answer.
    rewrite fold_dict_set_fresh; [reflexivity|].
    by apply filter_keys_NoDup.
Qed.

Lemma service_infos_are_the_active_ones_example :
  let env := Demo.world [("emby", Demo.emby); ("plex", Demo.offline);
                         ("jellyfin", Demo.jellyfin)] Demo.sound in
  service_infos (Demo.plugin (VInt 0)) env Demo.fresh
  = (Ok (Some [("emby", Demo.emby); ("jellyfin", Demo.jellyfin)]),
     emits [EvLog Warning (MsgInactive "plex")] (asked Demo.fresh)) /\
  service_infos new_plugin env Demo.fresh
  = (Ok None, emit (EvLog Warning MsgNotConfigured) Demo.fresh).
Proof.
  intros env. split.
  - destruct (service_infos_are_the_active_ones (Demo.plugin (VInt 0)) env Demo.fresh)
      as [_ Hsome].
    apply Hsome; [discriminate|].
    change (NoDup ["emby"; "plex"; "jellyfin"]).
    apply (bool_decide_unpack _). vm_compute. exact I.
  - destruct (service_infos_are_the_active_ones new_plugin env Demo.fresh) as [Hnone _].
    by apply Hnone.
Defined.

(** ** The guards of the handler *)

Section Guards.

Variable lib : PyLib.

(** An event the handler has no use for is dropped.  With the plugin switched
    off ([get_state] false) or an event without payload, nothing happens at
    all: the state is the one the handler found, the registry is not even
    asked.  With no server available, or a payload without target path, the
    handler returns having logged at most the warnings of the resolution: no
    file or directory changes, the clock is not read, and there is no file
    operation, sleep or call on a client. *)
Theorem unusable_event_is_dropped self event env st :
  let run := refresh lib self event env st in
  (py_bool (get_state self) = false \/ event_data event = None -> run = (Ok tt, st)) /\
  ((service_infos self env st).1 = Ok None \/
   (forall event_info, event_data event = Some event_info -> target_of event_info = None) ->
   run.1 = Ok tt /\
   files run.2 = files st /\
   dirs run.2 = dirs st /\
   clock_reads run.2 = clock_reads st /\
   exists logs, trace run.2 = trace st ++ logs /\ forallb is_log logs = true).
Proof.
  intros run. subst run. unfold get_state, refresh. split.
  - intros [Hoff|Hempty]; [by rewrite Hoff|].
    rewrite Hempty. by destruct (negb _).
  - intros Hnone.
    assert (forall st', st' = st ->
              files st' = files st /\ dirs st' = dirs st /\ clock_reads st' = clock_reads st /\
              exists logs, trace st' = trace st ++ logs /\ forallb is_log logs = true) as Hsame.
    { intros st' ->. repeat split. exists []. by rewrite app_nil_r. }
    destruct (negb (py_bool (_enabled self))); [split; [done|by apply Hsame]|].
    destruct (event_data event) as [event_info|]; [|split; [done|by apply Hsame]].
    unfold bind.
    destruct (service_infos_returns self env st) as [infos Hinfos].
    destruct (service_infos self env st) as [r st1] eqn:Hsvc. simpl in Hinfos. subst r.
    pose proof (service_infos_frame _ _ _ _ _ Hsvc) as Hframe.
    destruct infos as [services|]; [|by split].
    destruct Hnone as [Hnone|Hnone]; [simpl in Hnone; discriminate|].
    rewrite (Hnone event_info eq_refl). by split.
Qed.

End Guards.

(** A disabled plugin drops a full notification; an enabled one drops a
    notification for which no server is connected, with two warnings. *)
Lemma unusable_event_is_dropped_example :
  let env := Demo.world [("emby", Demo.offline)] Demo.sound in
  refresh Sample.lib new_plugin Demo.event env (Demo.holding "soon")
  = (Ok tt, Demo.holding "soon") /\
  (let run := refresh Sample.lib (Demo.plugin (VStr "60")) Demo.event env
                (Demo.holding "soon") in
   run.1 = Ok tt /\
   files run.2 = files (Demo.holding "soon") /\
   dirs run.2 = dirs (Demo.holding "soon") /\
   clock_reads run.2 = clock_reads (Demo.holding "soon") /\
   exists logs, trace run.2 = trace (Demo.holding "soon") ++ logs
                /\ forallb is_log logs = true).
Proof.
  intros env. split.
  - destruct (unusable_event_is_dropped Sample.lib new_plugin Demo.event env
                (Demo.holding "soon")) as [Hoff _].
    apply Hoff. by left.
  - destruct (unusable_event_is_dropped Sample.lib (Demo.plugin (VStr "60")) Demo.event env
                (Demo.holding "soon")) as [_ Hnone].
    apply Hnone. by left.
Defined.

(** ** The preferred call of the dispatch loop *)

(** A service whose client has the item refresh gets exactly one item call,
    with the items of the run, and no whole-library call, whether or not its
    client has the whole-library refresh as well.  (The loop reaches the
    service when the calls before it return; the names are the keys of a
    dict, hence distinct.) *)
Theorem item_refresh_is_preferred pre name service post items call env st :
  Forall (returns items) pre ->
  name ∉ map fst pre ->
  name ∉ map fst post ->
  refresh_library_by_items (instance service) = Some call ->
  exists new,
    trace (dispatch (pre ++ (name, service) :: post) items env st).2 = trace st ++ new /\
    count (is_item_call name) new = 1 /\
    count (is_root_call name) new = 0 /\
    In (EvRefreshItems name items) new.
Proof.
  intros Hpre Hnpre Hnpost Hitems.
  rewrite dispatch_returning by done.
  set (st1 := emits (effects_of pre items) st).
  assert (exists k, (dispatch ((name, service) :: post) items env st1).2
                    = emits (effects_of (take k post) items)
                        (emit (service_effect name service items) st1)) as [k Hk].
  { rewrite dispatch_cons. destruct (service_call service items).
    - apply dispatch_trace.
    - exists 0. by rewrite take_0, emits_nil. }
  rewrite Hk. subst st1.
  exists (effects_of pre items ++ [service_effect name service items]
            ++ effects_of (take k post) items).
  split; [cbn [trace emits emit]; by rewrite <- !app_assoc|].
  pose proof (not_in_take name k post Hnpost) as Hntake.
  rewrite !count_app.
  rewrite (count_effects_other _ name pre items (fun n s => item_call_names name n s items) Hnpre).
  rewrite (count_effects_other _ name _ items (fun n s => item_call_names name n s items) Hntake).
  rewrite (count_effects_other _ name pre items (fun n s => root_call_names name n s items) Hnpre).
  rewrite (count_effects_other _ name _ items (fun n s => root_call_names name n s items) Hntake).
  unfold service_effect. rewrite Hitems.
  split; [unfold count; simpl; by rewrite String.eqb_refl|].
  split; [reflexivity|].
  apply in_or_app. right. by left.
Qed.

(** Emby has both refresh methods and stands after jellyfin. *)
Lemma item_refresh_is_preferred_example :
  let items := [refresh_item Sample.lib Demo.heat Demo.target] in
  let env := Demo.world [] Demo.sound in
  is_Some (refresh_root_library (instance Demo.emby)) /\
  exists new,
    trace (dispatch ([("jellyfin", Demo.jellyfin)] ++ ("emby", Demo.emby)
                       :: [("bare", Demo.bare)]) items env Demo.fresh).2
    = trace Demo.fresh ++ new /\
    count (is_item_call "emby") new = 1 /\
    count (is_root_call "emby") new = 0 /\
    In (EvRefreshItems "emby" items) new.
Proof.
  intros items env. split; [by eexists|].
  eapply (item_refresh_is_preferred [("jellyfin", Demo.jellyfin)] "emby" Demo.emby
            [("bare", Demo.bare)] items _ env Demo.fresh).
  - by repeat constructor.
  - by apply not_elem_of_cons; split; [|apply not_elem_of_nil].
  - by apply not_elem_of_cons; split; [|apply not_elem_of_nil].
  - reflexivity.
Defined.

(** ** The delay and the dispatch, in the order of the run *)

Section Order.

Variable lib : PyLib.

Lemma fs_or_log_counts evs :
  forallb is_log_or_fs evs = true -> count is_call evs = 0 /\ count is_sleep evs = 0.
Proof.
  intros Hevs. split; (eapply count_none; [|exact Hevs]); by intros [| | | |].
Qed.

Lemma log_is_log_or_fs ev : is_log ev = true -> is_log_or_fs ev = true.
Proof. unfold is_log_or_fs. by intros ->. Qed.

Lemma forallb_weaken (f g : Effect -> bool) evs :
  (forall ev, f ev = true -> g ev = true) -> forallb f evs = true -> forallb g evs = true.
Proof. intros Himp. rewrite !forallb_forall. auto. Qed.

(** What the delay branch adds to the trace: log lines and file operations,
    and then, when it lets the handler go on, the sleep of the delay. *)
Lemma delayed_trace self p env st :
  let r := delayed lib self p env st in
  exists pre, forallb is_log_or_fs pre = true /\
    match r.1 with
    | Ok true =>
        exists d, py_float lib (_delay self) = Ok d /\ sleep_error lib d = None /\
                  trace r.2 = trace st ++ pre ++ [EvSleep d]
    | _ => trace r.2 = trace st ++ pre
    end.
Proof.
  unfold delayed, bind, lift.
  destruct (py_float lib (_delay self)) as [d|e] eqn:Hd.
  2:{ exists []. split; [done|]. simpl. by rewrite app_nil_r. }
  rewrite log_run.
  set (st0 := emit (EvLog Info (MsgLockPath (lock_file lib env p))) st).
  destruct (try_lock_footprint lib (path_str lib p) (lock_dir lib env)
              (lock_file lib env p) d env st0) as ((new & Ht & Hnew) & _ & _).
  destruct (try_lock lib _ _ _ d env st0) as [[[|]|e] st2]; cbn [fst snd ret] in *.
  - rewrite log_run. unfold time_sleep.
    destruct (sleep_error lib d) as [e|] eqn:Hsleep; cbn [fst snd raise effect ret].
    + exists ([EvLog Info (MsgLockPath (lock_file lib env p))] ++ new
                 ++ [EvLog Info (MsgDelay (_delay self))]).
      split; [by rewrite !forallb_app, Hnew|].
      cbn [trace emit]. rewrite Ht. subst st0. cbn [trace emit].
      by rewrite <- !app_assoc.
    + exists ([EvLog Info (MsgLockPath (lock_file lib env p))] ++ new
                 ++ [EvLog Info (MsgDelay (_delay self))]).
      split; [by rewrite !forallb_app, Hnew|].
      exists d. split; [done|]. split; [done|].
      cbn [trace emit]. rewrite Ht. subst st0. cbn [trace emit].
      by rewrite <- !app_assoc.
  - exists ([EvLog Info (MsgLockPath (lock_file lib env p))] ++ new).
    split; [by rewrite forallb_app, Hnew|].
    rewrite Ht. subst st0. cbn [trace emit]. by rewrite <- !app_assoc.
  - exists ([EvLog Info (MsgLockPath (lock_file lib env p))] ++ new).
    split; [by rewrite forallb_app, Hnew|].
    rewrite Ht. subst st0. cbn [trace emit]. by rewrite <- !app_assoc.
Qed.

(** A run with a delay configured, by its trace: log lines and file
    operations, and then, if the handler gets that far, the sleep followed by
    log lines and calls on the clients. *)
Lemma refresh_trace self event env st :
  py_bool (_delay self) = true ->
  exists new, trace (refresh lib self event env st).2 = trace st ++ new /\
    (forallb is_log_or_fs new = true \/
     exists d pre post,
       py_float lib (_delay self) = Ok d /\ sleep_error lib d = None /\
       new = pre ++ EvSleep d :: post /\
       forallb is_log_or_fs pre = true /\ forallb is_log_or_call post = true).
Proof.
  intros Hdelay. unfold refresh.
  assert (exists new, trace st = trace st ++ new /\ forallb is_log_or_fs new = true) as Hnil.
  { exists []. by rewrite app_nil_r. }
  destruct (negb (py_bool (_enabled self)));
    [destruct Hnil as (new & ? & ?); exists new; by split; [|left]|].
  destruct (event_data event) as [event_info|];
    [|destruct Hnil as (new & ? & ?); exists new; by split; [|left]].
  clear Hnil. unfold bind.
  destruct (service_infos self env st) as [r st1] eqn:Hsvc.
  destruct (service_infos_frame _ _ _ _ _ Hsvc) as (_ & _ & _ & logs & Ht & Hlogs).
  apply (forallb_weaken _ _ _ log_is_log_or_fs) in Hlogs.
  destruct r as [[services|]|e]; cbn [fst snd ret]; [|by exists logs; split; [|left]..].
  destruct (target_of event_info) as [p|]; [|by exists logs; split; [|left]].
  rewrite Hdelay.
  destruct (delayed_trace self p env st1) as (pre & Hpre & Hshape).
  destruct (delayed lib self p env st1) as [[[|]|e] st2]; cbn [fst snd ret] in *.
  - destruct Hshape as (d & Hd & Hsleep & Ht2).
    destruct (refresh_servers_steady lib self event_info p env st2)
      as (_ & _ & post & Ht3 & Hpost).
    exists (logs ++ pre ++ [EvSleep d] ++ post). split.
    + rewrite Ht3, Ht2, Ht. by rewrite <- !app_assoc.
    + right. exists d, (logs ++ pre), post. repeat (split; [done|]).
      split; [by rewrite <- !app_assoc|]. split; [|done].
      by rewrite forallb_app, Hlogs, Hpre.
  - exists (logs ++ pre). split; [rewrite Hshape, Ht; by rewrite <- app_assoc|].
    left. by rewrite forallb_app, Hlogs, Hpre.
  - exists (logs ++ pre). split; [rewrite Hshape, Ht; by rewrite <- app_assoc|].
    left. by rewrite forallb_app, Hlogs, Hpre.
Qed.

(** With a delay configured, no client is called before the handler has
    slept: whatever happens, the trace of a run either holds no call and no
    sleep at all, or it holds exactly one sleep, of the configured delay,
    with every call on a client after it and every file operation before
    it. *)
Theorem no_call_before_the_sleep self event env st :
  py_bool (_delay self) = true ->
  exists new, trace (refresh lib self event env st).2 = trace st ++ new /\
    ((count is_call new = 0 /\ count is_sleep new = 0) \/
     exists d pre post,
       py_float lib (_delay self) = Ok d /\
       new = pre ++ EvSleep d :: post /\
       count is_call pre = 0 /\ count is_sleep pre = 0 /\
       count is_fs post = 0 /\ count is_sleep post = 0).
Proof.
  intros Hdelay.
  destruct (refresh_trace self event env st Hdelay)
    as (new & Ht & [Hnew|(d & pre & post & Hd & _ & -> & Hpre & Hpost)]).
  - exists new. split; [done|]. left. by apply fs_or_log_counts.
  - exists (pre ++ EvSleep d :: post). split; [done|]. right.
    exists d, pre, post. split; [done|]. split; [done|].
    destruct (fs_or_log_counts _ Hpre) as [Hcalls Hsleeps].
    destruct (quiet_counts _ Hpost) as [Hfs Hsleeps'].
    by repeat split.
Qed.

(** A delay that [float] does not convert: the handler raises as soon as the
    guards are passed, before it has logged, looked at or written anything
    of the lock. *)
Theorem unconvertible_delay_raises self event event_info services p e env st st1 :
  py_bool (_enabled self) = true ->
  event_data event = Some event_info ->
  service_infos self env st = (Ok (Some services), st1) ->
  target_of event_info = Some p ->
  py_bool (_delay self) = true ->
  py_float lib (_delay self) = Raise e ->
  refresh lib self event env st = (Raise e, st1) /\
  files st1 = files st /\ dirs st1 = dirs st /\
  exists logs, trace st1 = trace st ++ logs /\ forallb is_log logs = true.
Proof.
  intros Hen Hev Hsvc Htarget Hdelay Hd.
  destruct (service_infos_frame _ _ _ _ _ Hsvc) as (Hf & Hdirs & _ & Hlogs).
  split; [|by repeat split].
  rewrite (refresh_reach lib _ _ _ _ _ _ _ _ Hen Hev Hsvc Htarget), Hdelay.
  unfold bind, delayed, bind, lift. by rewrite Hd.
Qed.

(** A delay that [time.sleep] rejects (a negative one): no server is ever
    refreshed.  The handler goes through the lock step and then either
    returns, on a pending lock, or raises the error of the sleep; in
    particular it raises whenever the lock is absent, empty, expired,
    unreadable or corrupt. *)
Theorem rejected_sleep_refreshes_nothing self event event_info services p d e env st st1 :
  py_bool (_enabled self) = true ->
  event_data event = Some event_info ->
  service_infos self env st = (Ok (Some services), st1) ->
  target_of event_info = Some p ->
  py_bool (_delay self) = true ->
  py_float lib (_delay self) = Ok d ->
  sleep_error lib d = Some e ->
  let run := refresh lib self event env st in
  (exists new, trace run.2 = trace st ++ new /\ count is_call new = 0 /\ count is_sleep new = 0) /\
  (run.1 = Raise e \/ run.1 = Ok tt) /\
  (forall l, lock_is lib env st (lock_file lib env p) l -> run.1 = Raise e).
Proof.
  intros Hen Hev Hsvc Htarget Hdelay Hd Hsleep run. split; [|].
  { destruct (refresh_trace self event env st Hdelay)
      as (new & Ht & [Hnew|(d' & pre & post & Hd' & Hsleep' & _)]).
    - exists new. split; [done|]. by apply fs_or_log_counts.
    - rewrite Hd in Hd'. injection Hd' as <-. congruence. }
  destruct (service_infos_frame _ _ _ _ _ Hsvc) as (Hf & Hdirs & Hc & _).
  subst run. rewrite (refresh_reach lib _ _ _ _ _ _ _ _ Hen Hev Hsvc Htarget), Hdelay.
  unfold bind at 1. unfold delayed, bind, lift. rewrite Hd, log_run.
  set (st0 := emit (EvLog Info (MsgLockPath (lock_file lib env p))) st1).
  destruct (try_lock_returns lib (path_str lib p) (lock_dir lib env) (lock_file lib env p)
              d env st0) as [go Hgo].
  pose proof (try_lock_goes lib (path_str lib p) (lock_dir lib env) (lock_file lib env p)
                d env st0) as Hgoes.
  pose proof (fun l => lock_pending_not_true lib (path_str lib p) (lock_file lib env p)
                         env st0 l) as Hnot.
  destruct (try_lock lib _ _ _ d env st0) as [r st2]. simpl in Hgo. subst r.
  destruct go; cbn [fst snd ret].
  - rewrite log_run. unfold time_sleep. rewrite Hsleep. cbn [fst snd raise].
    split; [by left | done].
  - split; [by right|]. intros l Hl.
    assert (lock_is lib env st0 (lock_file lib env p) l) as Hl0.
    { eapply lock_is_same; [..|exact Hl]; subst st0; cbn [files dirs clock_reads emit];
        by symmetry. }
    specialize (Hgoes (Hnot l Hl0)). simpl in Hgoes. discriminate.
Qed.

(** The two places where the handler dereferences [None] without a guard,
    once the guards are passed and the delay, if any, has been slept: a
    payload without [mediainfo] ([mediainfo.title]), and no server active
    any more at the time of the dispatch, when the second resolution gives
    [None] ([None.items()]).  The handler does not return quietly as it does
    at the first resolution: it raises [AttributeError].  No client has been
    called. *)
Theorem unguarded_none_raises self event event_info services p env st st1 st2 :
  py_bool (_enabled self) = true ->
  event_data event = Some event_info ->
  service_infos self env st = (Ok (Some services), st1) ->
  target_of event_info = Some p ->
  (if py_bool (_delay self) then delayed lib self p else ret true) env st1 = (Ok true, st2) ->
  mediainfo event_info = None \/ (service_infos self env st2).1 = Ok None ->
  exists st' new,
    refresh lib self event env st = (Raise AttributeError, st') /\
    trace st' = trace st ++ new /\
    count is_call new = 0.
Proof.
  intros Hen Hev Hsvc Htarget Hgo Hnone.
  rewrite (refresh_reach lib _ _ _ _ _ _ _ _ Hen Hev Hsvc Htarget).
  rewrite (bind_ok _ _ _ _ _ _ Hgo).
  destruct (service_infos_frame _ _ _ _ _ Hsvc) as (_ & _ & _ & logs & Ht & Hlogs).
  destruct (logs_counts _ Hlogs) as (Hcalls & _ & _).
  assert (exists mid, trace st2 = trace st ++ mid /\ count is_call mid = 0)
    as (mid & Hmid & Hcallsmid).
  { destruct (py_bool (_delay self)).
    - destruct (delayed_trace self p env st1) as (pre & Hpre & Hshape).
      rewrite Hgo in Hshape. cbn [fst snd] in Hshape.
      destruct Hshape as (d & _ & _ & Ht1).
      destruct (fs_or_log_counts _ Hpre) as [Hcalls1 _].
      exists (logs ++ pre ++ [EvSleep d]). split.
      + rewrite Ht1, Ht. by rewrite <- !app_assoc.
      + rewrite !count_app, Hcalls, Hcalls1. reflexivity.
    - injection Hgo as <-. by exists logs. }
  unfold refresh_servers.
  destruct (mediainfo event_info) as [mi|]; [|by exists st2, mid].
  destruct Hnone as [?|Hnone]; [done|].
  unfold bind.
  destruct (service_infos self env st2) as [r st3] eqn:Hsvc2. simpl in Hnone. subst r.
  destruct (service_infos_frame _ _ _ _ _ Hsvc2) as (_ & _ & _ & logs2 & Ht2 & Hlogs2).
  destruct (logs_counts _ Hlogs2) as (Hcalls2 & _ & _).
  exists st3, (mid ++ logs2). split; [done|]. split.
  - rewrite Ht2, Hmid. by rewrite <- app_assoc.
  - by rewrite count_app, Hcallsmid, Hcalls2.
Qed.

(** The servers refreshed are the ones active at the time of the dispatch:
    [service_infos] is evaluated a second time after the delay, and the loop
    runs over that result, each server getting the one item built from the
    event; the servers found at the guard play no part.  When every call
    returns, the handler returns, having called them all in the order of the
    second result. *)
Theorem servers_of_the_second_resolution self event event_info mi services p env st st1 st2
    services' st3 :
  py_bool (_enabled self) = true ->
  event_data event = Some event_info ->
  service_infos self env st = (Ok (Some services), st1) ->
  target_of event_info = Some p ->
  (if py_bool (_delay self) then delayed lib self p else ret true) env st1 = (Ok true, st2) ->
  mediainfo event_info = Some mi ->
  service_infos self env st2 = (Ok (Some services'), st3) ->
  refresh lib self event env st = dispatch services' [refresh_item lib mi p] env st3 /\
  (Forall (returns [refresh_item lib mi p]) services' ->
   refresh lib self event env st
   = (Ok tt, emits (effects_of services' [refresh_item lib mi p]) st3)).
Proof.
  intros Hen Hev Hsvc Htarget Hgo Hmi Hsvc2.
  assert (refresh lib self event env st = dispatch services' [refresh_item lib mi p] env st3)
    as Hrun.
  { rewrite (refresh_reach lib _ _ _ _ _ _ _ _ Hen Hev Hsvc Htarget).
    rewrite (bind_ok _ _ _ _ _ _ Hgo).
    unfold refresh_servers. rewrite Hmi.
    by rewrite (bind_ok _ _ _ _ _ _ Hsvc2). }
  split; [done|]. intros Hall. rewrite Hrun.
  rewrite <- (app_nil_r services') at 1. by rewrite dispatch_returning.
Qed.

End Order.

(** A first notification with a delay of sixty seconds: the lock step, the
    sleep, the call. *)
Lemma no_call_before_the_sleep_example :
  let env := Demo.world [("emby", Demo.emby)] Demo.sound in
  exists new,
    trace (refresh Sample.lib (Demo.plugin (VStr "60")) Demo.event env Demo.fresh).2
    = trace Demo.fresh ++ new /\
    ((count is_call new = 0 /\ count is_sleep new = 0) \/
     exists d pre post,
       py_float Sample.lib (_delay (Demo.plugin (VStr "60"))) = Ok d /\
       new = pre ++ EvSleep d :: post /\
       count is_call pre = 0 /\ count is_sleep pre = 0 /\
       count is_fs post = 0 /\ count is_sleep post = 0).
Proof.
  intros env.
  apply (no_call_before_the_sleep Sample.lib (Demo.plugin (VStr "60")) Demo.event env
           Demo.fresh).
  reflexivity.
Defined.

(** The delay configured as the text [soon]. *)
Lemma unconvertible_delay_raises_example :
  let env := Demo.world [("emby", Demo.emby)] Demo.sound in
  refresh Sample.lib (Demo.plugin (VStr "soon")) Demo.event env (Demo.holding "1762258030.5")
  = (Raise ValueError, asked (Demo.holding "1762258030.5")) /\
  files (asked (Demo.holding "1762258030.5")) = files (Demo.holding "1762258030.5") /\
  dirs (asked (Demo.holding "1762258030.5")) = dirs (Demo.holding "1762258030.5") /\
  exists logs,
    trace (asked (Demo.holding "1762258030.5")) = trace (Demo.holding "1762258030.5") ++ logs
    /\ forallb is_log logs = true.
Proof.
  intros env.
  apply (unconvertible_delay_raises Sample.lib (Demo.plugin (VStr "soon")) Demo.event
           {| mediainfo := Some Demo.heat; transferinfo := Some Demo.transfer |}
           [("emby", Demo.emby)] Demo.target ValueError env (Demo.holding "1762258030.5"));
    reflexivity.
Defined.

(** The delay configured as the text [-5], and no lock: the lock is written,
    the sleep raises, emby is not called. *)
Lemma rejected_sleep_refreshes_nothing_example :
  let env := Demo.world [("emby", Demo.emby)] Demo.sound in
  let run := refresh Sample.lib (Demo.plugin (VStr "-5")) Demo.event env Demo.fresh in
  (exists new, trace run.2 = trace Demo.fresh ++ new
               /\ count is_call new = 0 /\ count is_sleep new = 0) /\
  run.1 = Raise ValueError.
Proof.
  intros env run.
  destruct (rejected_sleep_refreshes_nothing Sample.lib (Demo.plugin (VStr "-5")) Demo.event
              {| mediainfo := Some Demo.heat; transferinfo := Some Demo.transfer |}
              [("emby", Demo.emby)] Demo.target (-5)%float ValueError env Demo.fresh
              (asked Demo.fresh))
    as (Htrace & _ & Hraise); try (vm_compute; reflexivity).
  split; [exact Htrace|].
  apply (Hraise LockAbsent). split; [reflexivity | apply not_elem_of_empty].
Defined.

(** Emby is connected at the guard and gone after the five seconds of the
    delay; and a notification without its [mediainfo]. *)
Lemma unguarded_none_raises_example :
  (exists st' new,
     refresh Sample.lib (Demo.plugin (VInt 5)) Demo.event Demo.fading Demo.fresh
     = (Raise AttributeError, st') /\
     trace st' = trace Demo.fresh ++ new /\
     count is_call new = 0) /\
  (exists st' new,
     refresh Sample.lib (Demo.plugin (VInt 5)) Demo.bare_event
       (Demo.world [("emby", Demo.emby)] Demo.sound) Demo.fresh
     = (Raise AttributeError, st') /\
     trace st' = trace Demo.fresh ++ new /\
     count is_call new = 0).
Proof.
  split.
  - eapply (unguarded_none_raises Sample.lib (Demo.plugin (VInt 5)) Demo.event
              _ _ Demo.target Demo.fading Demo.fresh);
      try (vm_compute; reflexivity).
    right. vm_compute. reflexivity.
  - eapply (unguarded_none_raises Sample.lib (Demo.plugin (VInt 5)) Demo.bare_event
              _ _ Demo.target (Demo.world [("emby", Demo.emby)] Demo.sound) Demo.fresh);
      try (vm_compute; reflexivity).
    by left.
Defined.

(** Emby alone is connected at the guard; at the dispatch jellyfin is there
    as well, and comes first. *)
Lemma servers_of_the_second_resolution_example :
  refresh Sample.lib (Demo.plugin (VInt 0)) Demo.event Demo.growing Demo.fresh
  = (Ok tt,
     emits [EvRefreshRoot "jellyfin";
            EvRefreshItems "emby" [refresh_item Sample.lib Demo.heat Demo.target]]
       (asked (asked Demo.fresh))).
Proof.
  refine (proj2 (servers_of_the_second_resolution Sample.lib (Demo.plugin (VInt 0))
                   Demo.event
                   {| mediainfo := Some Demo.heat; transferinfo := Some Demo.transfer |}
                   Demo.heat [("emby", Demo.emby)] Demo.target Demo.growing Demo.fresh
                   (asked Demo.fresh) (asked Demo.fresh)
                   [("jellyfin", Demo.jellyfin); ("emby", Demo.emby)]
                   (asked (asked Demo.fresh)) _ _ _ _ _ _ _) _);
    try reflexivity.
  by repeat constructor.
Defined.

(** ** Notifications one after the other *)

Section Successive.

Variable lib : PyLib.

(** The check of the lock says "pending" only on a lock file it has read,
    with a time after the clock reading. *)
Lemma lock_pending_found tp lp env st :
  (lock_pending lib tp lp env st).1 = Ok true ->
  exists content lock_time,
    files st !! lp = Some content /\ content <> "" /\
    float_of_str lib content = Ok lock_time /\
    PrimFloat.ltb (time_time env (clock_reads st)) lock_time = true.
Proof.
  unfold lock_pending, path_exists, open_read, read, bind, fs_do, lift, time_now,
    log, effect, ret.
  destruct (fs_fault env (FsExists lp)); [discriminate|].
  change (is_file lp (emit ?e st)) with (is_file lp st).
  change (is_dir lp (emit ?e st)) with (is_dir lp st).
  destruct (files st !! lp) as [content|] eqn:Hfile.
  - rewrite (is_file_true _ _ _ Hfile). cbn [orb].
    destruct (fs_fault env (FsOpenRead lp)); [discriminate|].
    change (is_file lp (emit ?e ?s)) with (is_file lp st).
    rewrite (is_file_true _ _ _ Hfile).
    destruct (fs_fault env (FsRead lp)); [discriminate|].
    cbn [fst snd files emit]. rewrite Hfile. cbn [default from_option id].
    destruct (String.eqb content "") eqn:Hne; [discriminate|]. cbn [negb].
    destruct (float_of_str lib content) as [lock_time|e] eqn:Hparse; [|discriminate].
    cbn [fst snd clock_reads emit].
    destruct (PrimFloat.ltb _ lock_time) eqn:Hlt; [|discriminate].
    intros _. exists content, lock_time. repeat split; try done.
    by apply String.eqb_neq.
  - rewrite (is_file_false _ _ Hfile). cbn [orb].
    destruct (is_dir lp st) eqn:Hdir; [|discriminate].
    destruct (fs_fault env (FsOpenRead lp)); [discriminate|].
    change (is_file lp (emit ?e ?s)) with (is_file lp st).
    change (is_dir lp (emit ?e ?s)) with (is_dir lp st).
    rewrite (is_file_false _ _ Hfile), Hdir. discriminate.
Qed.

(** The [try] statement makes the handler return only when the check says
    "pending". *)
Lemma try_lock_returned tp parent lp d env st :
  (try_lock lib tp parent lp d env st).1 = Ok false ->
  (lock_pending lib tp lp env st).1 = Ok true.
Proof.
  unfold try_lock, try_except, bind.
  destruct (lock_pending lib tp lp env st) as [[[|]|e] st1];
    cbn [fst snd log effect ret]; try done.
  by destruct (write_lock lib parent lp d env st1) as [[[]|e] st2].
Qed.

Lemma delayed_returned_inv self p d env st :
  py_float lib (_delay self) = Ok d ->
  (delayed lib self p env st).1 = Ok false ->
  (try_lock lib (path_str lib p) (lock_dir lib env) (lock_file lib env p) d env
     (emit (EvLog Info (MsgLockPath (lock_file lib env p))) st)).1 = Ok false.
Proof.
  intros Hd. unfold delayed, bind, lift. rewrite Hd, log_run.
  destruct (try_lock lib _ _ _ d env _) as [[[|]|e] st2]; cbn [fst snd ret]; try done.
  rewrite log_run. unfold time_sleep.
  by destruct (sleep_error lib d).
Qed.

(** A notification is dropped at the lock only for a lock that is pending:
    when the handler, past its guards and with a delay it can sleep, ends
    without having slept, the lock file of the target held a time after the
    clock reading. *)
Theorem dropped_only_on_pending_lock self event event_info services p d env st st1 :
  py_bool (_enabled self) = true ->
  event_data event = Some event_info ->
  service_infos self env st = (Ok (Some services), st1) ->
  target_of event_info = Some p ->
  py_bool (_delay self) = true ->
  py_float lib (_delay self) = Ok d ->
  sleep_error lib d = None ->
  (exists new, trace (refresh lib self event env st).2 = trace st ++ new
               /\ count is_sleep new = 0) ->
  exists content lock_time,
    files st !! lock_file lib env p = Some content /\ content <> "" /\
    float_of_str lib content = Ok lock_time /\
    PrimFloat.ltb (time_time env (clock_reads st)) lock_time = true.
Proof.
  intros Hen Hev Hsvc Htarget Hdelay Hd Hsleep (new & Hnew & Hcount).
  destruct (service_infos_frame _ _ _ _ _ Hsvc) as (Hf & _ & Hc & logs & Ht & _).
  rewrite (refresh_reach lib _ _ _ _ _ _ _ _ Hen Hev Hsvc Htarget), Hdelay in Hnew.
  unfold bind in Hnew.
  destruct (delayed_returns lib self p d env st1 Hd Hsleep) as [go Hgo].
  pose proof (delayed_trace lib self p env st1) as (pre & _ & Hshape).
  pose proof (delayed_returned_inv self p d env st1 Hd) as Hinv.
  destruct (delayed lib self p env st1) as [r st2]. cbn [fst snd] in *. subst r.
  destruct go.
  - destruct Hshape as (d' & _ & _ & Ht2).
    destruct (refresh_servers_steady lib self event_info p env st2)
      as (_ & _ & post & Ht3 & _).
    rewrite Ht3, Ht2, Ht, <- !app_assoc in Hnew. apply app_inv_head in Hnew. subst new.
    rewrite !count_app in Hcount. unfold count at 3 in Hcount. simpl in Hcount. lia.
  - specialize (Hinv eq_refl).
    apply try_lock_returned, lock_pending_found in Hinv
      as (content & lock_time & Hfile & Hne & Hparse & Hlt).
    cbn [files clock_reads emit] in Hfile, Hlt. rewrite Hf in Hfile. rewrite Hc in Hlt.
    by exists content, lock_time.
Qed.


End Successive.

(** A sixty-second delay and a lock stamped half a minute ahead. *)
Lemma dropped_only_on_pending_lock_example :
  let env := Demo.world [("emby", Demo.emby)] Demo.sound in
  exists content lock_time,
    files (Demo.holding "1762258030.5") !! lock_file Sample.lib env Demo.target
    = Some content /\
    content <> "" /\
    float_of_str Sample.lib content = Ok lock_time /\
    PrimFloat.ltb (time_time env (clock_reads (Demo.holding "1762258030.5"))) lock_time
    = true.
Proof.
  intros env.
  eapply (dropped_only_on_pending_lock Sample.lib (Demo.plugin (VStr "60")) Demo.event
            _ _ Demo.target _ env (Demo.holding "1762258030.5"));
    try (vm_compute; reflexivity).
  eexists. split; [vm_compute; reflexivity | reflexivity].
Defined.


(** ** Nothing is ever removed *)












Section Kept.

Variable lib : PyLib.





End Kept.

(** ** A lock that cannot be used *)

Section Broken.

Variable lib : PyLib.

(** A lock file that cannot be read, or that does not hold a number, is never
    repaired: the run leaves every file and directory as it was, so the next
    notification for the target finds the lock in the same condition and
    fails open again.  For that target nothing is coalesced until the file
    is removed or rewritten by other means. *)
Theorem broken_lock_is_never_repaired self event event_info services p d env st st1 l :
  py_bool (_enabled self) = true ->
  event_data event = Some event_info ->
  service_infos self env st = (Ok (Some services), st1) ->
  target_of event_info = Some p ->
  py_bool (_delay self) = true ->
  py_float lib (_delay self) = Ok d ->
  lock_is lib env st (lock_file lib env p) l ->
  stale l = false ->
  let run := refresh lib self event env st in
  files run.2 = files st /\
  dirs run.2 = dirs st /\
  lock_is lib env run.2 (lock_file lib env p) l.
Proof.
  intros Hen Hev Hsvc Htarget Hdelay Hd Hl Hbroken run.
  destruct (service_infos_frame _ _ _ _ _ Hsvc) as (Hf & Hdirs & Hc & _).
  set (lp := lock_file lib env p) in *.
  set (st0 := emit (EvLog Info (MsgLockPath lp)) st1).
  assert (exists e, try_lock lib (path_str lib p) (lock_dir lib env) lp d env st0
                    = (Ok true, emit (EvLog Info (MsgLockFailed e)) (emits (lock_checks lp l) st0)))
    as [e Htry].
  { assert (lock_is lib env st0 lp l) as Hl0.
    { eapply lock_is_same; [..|exact Hl]; subst st0; cbn [files dirs clock_reads emit];
        by symmetry. }
    destruct l as [| | |e|content e]; try discriminate; exists e;
      by apply try_lock_failed. }
  assert (files run.2 = files st /\ dirs run.2 = dirs st) as [Hfiles Hdirs'].
  { subst run. rewrite (refresh_reach lib _ _ _ _ _ _ _ _ Hen Hev Hsvc Htarget), Hdelay.
    unfold bind at 1. unfold delayed, bind, lift. rewrite Hd, log_run.
    fold lp. fold st0. rewrite Htry, log_run. unfold time_sleep.
    destruct (sleep_error lib d) as [e'|]; cbn [fst snd raise effect ret].
    - by split.
    - match goal with |- context [refresh_servers lib self event_info p env ?s] =>
        destruct (refresh_servers_steady lib self event_info p env s) as (Hf3 & Hd3 & _)
      end.
      rewrite Hf3, Hd3. by split. }
  split; [done|]. split; [done|].
  destruct l as [| | |e'|content e']; try discriminate; simpl in *; by rewrite Hfiles.
Qed.

End Broken.

(** The lock holding the text [soon] is still there, and still corrupt, after
    the run. *)
Lemma broken_lock_is_never_repaired_example :
  let env := Demo.world [("emby", Demo.emby)] Demo.sound in
  let run := refresh Sample.lib (Demo.plugin (VStr "60")) Demo.event env
               (Demo.holding "soon") in
  files run.2 = files (Demo.holding "soon") /\
  dirs run.2 = dirs (Demo.holding "soon") /\
  lock_is Sample.lib env run.2 (lock_file Sample.lib env Demo.target)
    (LockCorrupt "soon" ValueError).
Proof.
  intros env run.
  eapply (broken_lock_is_never_repaired Sample.lib (Demo.plugin (VStr "60")) Demo.event
            _ _ Demo.target _ env (Demo.holding "soon"));
    try (vm_compute; reflexivity).
  repeat split; try (vm_compute; reflexivity). discriminate.
Defined.
